(** * pypredictit: a verification development for the PredictIt client

    The Python package [predictit] (modules [utils], [account], [market] and
    [contract]) is embedded here as Rocq functions, one per method, keeping
    the names of the source.

    Conventions of the embedding.
    - Python [int] is [Z]; [decimal.Decimal] (the JSON payloads are decoded
      with [parse_float=Decimal]) is an exact rational [Q], compared with
      [Qeq]/[Qle] the way [Decimal] compares by value.  Sums and products of
      prices and share counts are exact in the decimal context as long as
      they fit its precision; the one operation that rounds, [/], is taken
      as a parameter where it is used.
    - A dict is a [gmap]; a missing key raises [KeyError].
    - A method that assigns attributes one after the other and may raise in
      between is a function [state -> state * (exn + result)]: the state
      that comes back with an exception is the partly assigned one.
    - A decoded JSON payload is a record of the keys the code reads.
    - [datetime.strptime], the system time zone and the worker pool are not
      code of this package: the first two are parameters of the sections
      that use them (a model of [strptime] on the directives this package
      uses is given for evaluation), the pool is a completion schedule. *)

From Stdlib Require Import ZArith QArith Lia Lqa List String Ascii Bool.
From Stdlib Require Import Permutation Sorted.
From stdpp Require Import gmap strings list.

Local Open Scope string_scope.
Local Open Scope Z_scope.

(** ** Exceptions and the state-and-exception monad *)

Inductive exn : Type :=
  | HTTPError (status : Z)                  (* resp.raise_for_status() *)
  | ValueError_price                        (* "Price must be between $0.01 and $0.99" *)
  | TypeError_quantity                      (* "Quantity must be an int, not ..." *)
  | ValueError_quantity                     (* "Quantity must be positive, not ..." *)
  | ValueError_own_yes                      (* "Can't trade No shares and own Yes shares" *)
  | ValueError_own_no                       (* "Can't trade Yes shares and own No shares" *)
  | ValueError_sell                         (* "Can't sell ... shares; only own ..." *)
  | ValueError_cap                          (* "Cannot invest more than $850 in a contract" *)
  | ValueError_strptime                     (* datetime.strptime on unparsable data *)
  | NotImplementedError_timezone            (* 'PredictIt returned a timezone other than "ET"' *)
  | OverflowError                           (* datetime arithmetic out of range *)
  | ZeroDivisionError                       (* also decimal's signals for x / 0 *)
  | TypeError_unpack                        (* "for p, q in ..." on something else than pairs *)
  | AttributeError                          (* an attribute that was never assigned *)
  | KeyError (key : Z)
  | TimeoutError                            (* Future.result(timeout=...) *)
  | RequestException (why : string).        (* raised by session.get itself *)

Definition result (A : Type) : Type := (exn + A)%type.

Definition M (S A : Type) : Type := S -> S * result A.

Definition ret {S A} (a : A) : M S A := fun s => (s, inr a).
Definition raise {S A} (e : exn) : M S A := fun s => (s, inl e).
Definition bind {S A B} (m : M S A) (k : A -> M S B) : M S B :=
  fun s => match m s with
           | (s', inr a) => k a s'
           | (s', inl e) => (s', inl e)
           end.
Definition modify {S} (f : S -> S) : M S unit := fun s => (f s, inr tt).
Definition lift {S A} (r : result A) : M S A := fun s => (s, r).

Notation "'do' x <- m ; k" := (bind m (fun x => k))
  (at level 10, x name, m at level 100, k at level 200).
Notation "m ;; k" := (bind m (fun _ => k))
  (at level 100, k at level 200, right associativity).

(** ** HTTP responses *)

Record Response (J : Type) : Type := mkResponse {
  status_code : Z;
  json : J
}.
Arguments mkResponse {J}.
Arguments status_code {J}.
Arguments json {J}.

(** [requests.Response.raise_for_status]: 4xx and 5xx raise [HTTPError]. *)
Definition raise_for_status {J} (resp : Response J) : result unit :=
  if (400 <=? status_code resp) && (status_code resp <? 600)
  then inl (HTTPError (status_code resp))
  else inr tt.

Definition failed {J} (resp : Response J) : Prop :=
  400 <= status_code resp < 600.


(** ** Naive datetimes

    [datetime.datetime] without [tzinfo]: the civil fields.  Arithmetic goes
    through the number of days since 1970-01-01 in the proleptic Gregorian
    calendar. *)

Record datetime : Type := mkDatetime {
  year : Z; month : Z; day : Z;
  hour : Z; minute : Z; second : Z; microsecond : Z
}.

Definition days_from_civil (y m d : Z) : Z :=
  let y' := if m <=? 2 then y - 1 else y in
  let era := y' / 400 in
  let yoe := y' - era * 400 in
  let doy := (153 * (if m >? 2 then m - 3 else m + 9) + 2) / 5 + d - 1 in
  let doe := yoe * 365 + yoe / 4 - yoe / 100 + doy in
  era * 146097 + doe - 719468.

Definition civil_from_days (z : Z) : Z * Z * Z :=
  let z' := z + 719468 in
  let era := z' / 146097 in
  let doe := z' - era * 146097 in
  let yoe := (doe - doe / 1460 + doe / 36524 - doe / 146096) / 365 in
  let doy := doe - (365 * yoe + yoe / 4 - yoe / 100) in
  let mp := (5 * doy + 2) / 153 in
  let d := doy - (153 * mp + 2) / 5 + 1 in
  let m := if mp <? 10 then mp + 3 else mp - 9 in
  (if m <=? 2 then yoe + era * 400 + 1 else yoe + era * 400, m, d).

(** Seconds since 1970-01-01T00:00:00 of a civil time (no zone involved). *)
Definition civil_seconds (t : datetime) : Z :=
  days_from_civil (year t) (month t) (day t) * 86400
  + hour t * 3600 + minute t * 60 + second t.

Definition of_civil_seconds (n us : Z) : datetime :=
  let '(y, m, d) := civil_from_days (n / 86400) in
  let r := n mod 86400 in
  mkDatetime y m d (r / 3600) (r mod 3600 / 60) (r mod 60) us.

(** [t - timedelta(seconds=off)]; [datetime] holds years 1 to 9999. *)
Definition datetime_sub_seconds (t : datetime) (off : Z) : result datetime :=
  let t' := of_civil_seconds (civil_seconds t - off) (microsecond t) in
  if (1 <=? year t') && (year t' <=? 9999) then inr t' else inl OverflowError.

(** ** What the package takes from its runtime

    - [strptime data format]: [datetime.datetime.strptime], [None] when it
      raises [ValueError];
    - [local_utcoffset t]: the UTC offset, in seconds east of Greenwich, that
      the system's local time zone has at the local civil time [t]: what
      [datetime.astimezone] presumes for a naive [t];
    - [truediv a b]: the value of [a / b] for [b] not zero, a [Decimal]
      quotient rounded by the ambient decimal context. *)
Class Runtime : Type := {
  strptime : string -> string -> option datetime;
  local_utcoffset : datetime -> Z;
  truediv : Q -> Z -> Q
}.

Definition py_strptime `{Runtime} (data fmt : string) : result datetime :=
  match strptime data fmt with
  | Some t => inr t
  | None => inl ValueError_strptime
  end.

(** Python's [a / b]. *)
Definition py_truediv `{Runtime} (a : Q) (b : Z) : result Q :=
  if b =? 0 then inl ZeroDivisionError else inr (truediv a b).

(** ** Strings *)

(** [c in s] for a character. *)
Fixpoint char_in (c : ascii) (s : string) : bool :=
  match s with
  | EmptyString => false
  | String c' s' => Ascii.eqb c c' || char_in c s'
  end.

(** [s[:n]] *)
Definition str_to (n : nat) (s : string) : string := substring 0 n s.

(** [s[n:]] *)
Fixpoint str_from (n : nat) (s : string) : string :=
  match n, s with
  | O, _ => s
  | S _, EmptyString => EmptyString
  | S n', String _ s' => str_from n' s'
  end.

Fixpoint lstrip (chars s : string) : string :=
  match s with
  | EmptyString => EmptyString
  | String c s' => if char_in c chars then lstrip chars s' else s
  end.

Definition str_rev (s : string) : string :=
  string_of_list_ascii (rev (list_ascii_of_string s)).

Definition rstrip (chars s : string) : string :=
  str_rev (lstrip chars (str_rev s)).

(** [s.strip(chars)] *)
Definition strip (chars s : string) : string := rstrip chars (lstrip chars s).

(** ** utils.py *)

Module utils.
Section concurrent_get.

(** [R] is [requests.Response].  [get k url] is the outcome of
    [session.get(url, timeout=timeout)] when this request is the [k]-th of
    the batch to finish: what the server answers may depend on when it is
    asked. *)
Context {R : Type}.
Variable get : nat -> string -> result R.

(** A [Future]: pending, or done with a value or an exception. *)
Definition future : Type := option (result R).

(** [futures = [pool.submit(get, url, timeout=timeout) for url in urls]]:
    one future per URL, in the order of [urls]. *)
Definition submit_all (urls : list string) : list future :=
  map (fun _ => None) urls.

(** A worker finishes task [i] as the [k]-th completion and sets the
    outcome on future [i]. *)
Definition complete (urls : list string) (k i : nat) (futures : list future)
  : list future :=
  match urls !! i, futures !! i with
  | Some url, Some None => <[i := Some (get k url)]> futures
  | _, _ => futures
  end.

(** The pool runs: [schedule] lists the tasks in the order they finish
    before the caller stops waiting.  Any order, repetitions and tasks
    that never finish are allowed; the pool size only restricts which
    orders occur. *)
Fixpoint run_pool (urls : list string) (k : nat) (schedule : list nat)
    (futures : list future) : list future :=
  match schedule with
  | [] => futures
  | i :: rest => run_pool urls (S k) rest (complete urls k i futures)
  end.

(** [f.result(timeout=timeout)] *)
Definition future_result (f : future) : result R :=
  match f with
  | None => inl TimeoutError
  | Some outcome => outcome
  end.

(** [[f.result(timeout=timeout) for f in futures]]: the first future, in
    list order, that raises ends the comprehension. *)
Fixpoint results (futures : list future) : result (list R) :=
  match futures with
  | [] => inr []
  | f :: rest =>
      match future_result f with
      | inl e => inl e
      | inr r => match results rest with
                 | inl e => inl e
                 | inr rs => inr (r :: rs)
                 end
      end
  end.

Definition concurrent_get (urls : list string) (schedule : list nat)
  : result (list R) :=
  results (run_pool urls 0 schedule (submit_all urls)).

End concurrent_get.

(** [notify_ifttt].  Its two exceptions: the [KeyError] of
    [os.environ["IFTTT_WEBHOOK_KEY"]] and the [ValueError] for an empty
    message. *)
Inductive notify_error : Type :=
  | KeyError_environ (name : string)
  | ValueError_message.

(** The request it sends: the URL and the form data. *)
Record ifttt_post : Type := mkIftttPost {
  post_url : string;
  value1 : option string;
  value2 : string;
  value3 : option string
}.

(** [environ] is [os.environ]; an argument that is [None] is [None] here. *)
Definition notify_ifttt (environ : gmap string string)
    (message title link key : option string) : notify_error + ifttt_post :=
  let url_fmt := "https://maker.ifttt.com/trigger/predictit_trade/with/key/" in
  let key' :=
    match key with
    | Some k => inr k
    | None =>
        match environ !! "IFTTT_WEBHOOK_KEY" with
        | Some k => inr k
        | None => inl (KeyError_environ "IFTTT_WEBHOOK_KEY")
        end
    end in
  match key' with
  | inl e => inl e
  | inr k =>
      match message with
      | None => inl ValueError_message
      | Some text =>
          if (String.length text =? 0)%nat then inl ValueError_message
          else inr (mkIftttPost (url_fmt ++ k) title text link)
      end
  end.

End utils.

(** ** contract.py *)

(** Values whose Python type matters to the code: the [trade_type] and
    [quantity] arguments of [_post_order]. *)
Inductive pyval : Type :=
  | PyInt (z : Z)
  | PyStr (s : string)
  | PyDecimal (q : Q)
  | PyNone.

(** Python's [==]: an [int] and a [str] are never equal. *)
Definition py_eq (a b : pyval) : bool :=
  match a, b with
  | PyInt x, PyInt y => x =? y
  | PyStr x, PyStr y => String.eqb x y
  | PyDecimal x, PyDecimal y => Qeq_bool x y
  | PyInt x, PyDecimal y | PyDecimal y, PyInt x => Qeq_bool (inject_Z x) y
  | PyNone, PyNone => true
  | _, _ => false
  end.

(** [x in (a, b, ...)] *)
Definition py_in (x : pyval) (t : list pyval) : bool := existsb (py_eq x) t.

(** [int(q)]: truncation towards zero. *)
Definition py_int (q : Q) : Z := Z.quot (Qnum q) (Zpos (Qden q)).

Definition Qlt_bool (a b : Q) : bool := negb (Qle_bool b a).

(** [<] on [(price, quantity)] tuples: the first components that differ
    decide. *)
Definition tuple_lt (a b : Q * Z) : bool :=
  if Qeq_bool (fst a) (fst b) then snd a <? snd b else Qlt_bool (fst a) (fst b).

(** [list.sort()]: a stable sort by [<], here by insertion. *)
Fixpoint insert_sorted (x : Q * Z) (l : list (Q * Z)) : list (Q * Z) :=
  match l with
  | [] => [x]
  | y :: l' => if tuple_lt y x then y :: insert_sorted x l' else x :: y :: l'
  end.

Fixpoint list_sort (l : list (Q * Z)) : list (Q * Z) :=
  match l with
  | [] => []
  | x :: l' => insert_sorted x (list_sort l')
  end.

(** [[(1 - p, q) for p, q in book]] *)
Definition complement_prices (book : list (Q * Z)) : list (Q * Z) :=
  map (fun '(p, q) => ((1 - p)%Q, q)) book.

Module Contract.

(** Decoded payloads. *)
Record order_json : Type := mkOrder {
  order_pricePerShare : Q;
  order_quantity : Z
}.

Record orderbook_json : Type := mkOrderBook {
  yesOrders : list order_json;
  noOrders : list order_json
}.

Record share_json : Type := mkShare {
  predictionType : Z;
  sharesOwned : Z;
  pricePerShare : Q;
  dateExecuted : string
}.

Record shares_json : Type := mkShares {
  contractName : string;
  shares : list share_json
}.

Record offer_json : Type := mkOffer {
  offerId : Z;
  contractId : Z;
  offer_pricePerShare : Q;
  quantity : Z;
  remainingQuantity : Z;
  dateCreated : string;
  isProcessed : bool;
  tradeType : Z
}.

Record offers_json : Type := mkOffers {
  offers : list offer_json
}.

(** A share record after the loop of [_update_shares] has replaced its
    ["dateExecuted"] by the parsed date. *)
Record share_detail : Type := mkShareDetail {
  detail_share : share_json;
  detail_dateExecuted : datetime
}.

Record OwnOrder : Type := mkOwnOrder {
  order_id : Z;
  contract_id_of : Z;
  price : Q;
  original_quantity : Z;
  remaining_quantity : Z;
  date_created : datetime;
  is_processed : bool
}.

(** The attributes of a [Contract] object. *)
Record t : Type := mk {
  _contract_id : Z;
  _order_book : gmap Z (list (Q * Z));
  _contract_name : string;
  _my_prediction : option Z;
  _shares_owned : Z;
  _investment : Q;
  share_details : list share_detail;
  _my_orders : gmap Z (list OwnOrder)
}.

Definition set_order_book (v : gmap Z (list (Q * Z))) (c : t) : t :=
  mk (_contract_id c) v (_contract_name c) (_my_prediction c)
     (_shares_owned c) (_investment c) (share_details c) (_my_orders c).
Definition set_contract_name (v : string) (c : t) : t :=
  mk (_contract_id c) (_order_book c) v (_my_prediction c)
     (_shares_owned c) (_investment c) (share_details c) (_my_orders c).
Definition set_my_prediction (v : option Z) (c : t) : t :=
  mk (_contract_id c) (_order_book c) (_contract_name c) v
     (_shares_owned c) (_investment c) (share_details c) (_my_orders c).
Definition set_shares_owned (v : Z) (c : t) : t :=
  mk (_contract_id c) (_order_book c) (_contract_name c) (_my_prediction c)
     v (_investment c) (share_details c) (_my_orders c).
Definition set_investment (v : Q) (c : t) : t :=
  mk (_contract_id c) (_order_book c) (_contract_name c) (_my_prediction c)
     (_shares_owned c) v (share_details c) (_my_orders c).
Definition set_share_details (v : list share_detail) (c : t) : t :=
  mk (_contract_id c) (_order_book c) (_contract_name c) (_my_prediction c)
     (_shares_owned c) (_investment c) v (_my_orders c).
Definition set_my_orders (v : gmap Z (list OwnOrder)) (c : t) : t :=
  mk (_contract_id c) (_order_book c) (_contract_name c) (_my_prediction c)
     (_shares_owned c) (_investment c) (share_details c) v.

(** *** Read-only properties *)

Definition contract_id (c : t) : Z := _contract_id c.
Definition contract_name (c : t) : string := _contract_name c.
Definition my_prediction (c : t) : option Z := _my_prediction c.
Definition shares_owned (c : t) : Z := _shares_owned c.
Definition investment (c : t) : Q := _investment c.

(** [d[k]] on a dict. *)
Definition getitem {A} (d : gmap Z A) (k : Z) : result A :=
  match d !! k with
  | Some v => inr v
  | None => inl (KeyError k)
  end.

(** *** Trading *)

(** The [data] dict of [_post_order]; each value is sent as its [str]. *)
Record trade_data : Type := mkTrade {
  data_pricePerShare : Z;
  data_quantity : Z;
  data_contractId : Z;
  data_tradeType : pyval
}.

(** [_post_order] up to and including the construction of [data]: the
    client-side checks.  A result [inr data] is the point where the method
    posts [data] to [Trade/SubmitTrade]. *)
Definition _post_order_data (trade_type : pyval) (price : Q) (quantity : pyval)
    (c : t) : result trade_data :=
  let int_price := py_int (100 * price) in
  if negb ((1 <=? int_price) && (int_price <=? 99)) then inl ValueError_price else
  match quantity with
  | PyInt quantity =>
      if quantity <=? 0 then inl ValueError_quantity else
      let position_check : result unit :=
        match my_prediction c with
        | Some prediction =>
            if negb (prediction =? 0) && py_in trade_type [PyInt 0; PyInt 2]
            then inl ValueError_own_yes
            else if (prediction =? 0) && py_in trade_type [PyInt 1; PyInt 3]
            then inl ValueError_own_no
            else inr tt
        | None => inr tt
        end in
      match position_check with
      | inl e => inl e
      | inr _ =>
          if (quantity >? shares_owned c) && py_in trade_type [PyInt 2; PyInt 3]
          then inl ValueError_sell
          else if py_in trade_type [PyInt 0; PyInt 1]
                  && Qlt_bool 850 (price * inject_Z quantity + investment c)
          then inl ValueError_cap
          else inr (mkTrade int_price quantity (contract_id c) trade_type)
      end
  | _ => inl TypeError_quantity
  end.

(** The whole method: [post] is [self.account.session.post] on the
    [SubmitTrade] URL. *)
Definition _post_order {J} (post : trade_data -> Response J)
    (trade_type : pyval) (price : Q) (quantity : pyval) (c : t)
  : result (Response J) :=
  match _post_order_data trade_type price quantity c with
  | inl e => inl e
  | inr data =>
      let resp := post data in
      match raise_for_status resp with
      | inl e => inl e
      | inr _ => inr resp
      end
  end.

Section trade_methods.
Context {J : Type} (post : trade_data -> Response J).
Definition buy_no := _post_order post (PyStr "0").
Definition buy_yes := _post_order post (PyStr "1").
Definition sell_no := _post_order post (PyStr "2").
Definition sell_yes := _post_order post (PyStr "3").
End trade_methods.

(** *** Order book *)

Definition tuples (orders : list order_json) : list (Q * Z) :=
  map (fun n => (order_pricePerShare n, order_quantity n)) orders.

(** [self._order_book[k].sort()] *)
Definition sort_side (k : Z) : M t unit :=
  fun c => match getitem (_order_book c) k with
           | inl e => (c, inl e)
           | inr side => (set_order_book (<[k := list_sort side]> (_order_book c)) c, inr tt)
           end.

Definition _update_order_book (resp : Response orderbook_json)
  : M t (Response orderbook_json) :=
  lift (raise_for_status resp) ;;
  let orders := json resp in
  modify (set_order_book ∅) ;;
  modify (fun c => set_order_book (<[1 := tuples (yesOrders orders)]> (_order_book c)) c) ;;
  modify (fun c => set_order_book (<[0 := tuples (noOrders orders)]> (_order_book c)) c) ;;
  sort_side 1 ;;
  sort_side 0 ;;
  ret resp.

Definition no_asks (c : t) : result (list (Q * Z)) :=
  match getitem (_order_book c) 0 with
  | inl e => inl e
  | inr side => inr (complement_prices side)
  end.

Definition yes_asks (c : t) : result (list (Q * Z)) :=
  getitem (_order_book c) 1.

Definition no_bids (c : t) : result (list (Q * Z)) :=
  match getitem (_order_book c) 1 with
  | inl e => inl e
  | inr side => inr (complement_prices side)
  end.

Definition yes_bids (c : t) : result (list (Q * Z)) :=
  getitem (_order_book c) 0.

(** *** Owned shares *)

Section with_runtime.
Context `{Runtime}.

(** The format chosen for a record's ["dateExecuted"]. *)
Definition str_format (share : share_json) : string :=
  if char_in "." (dateExecuted share)
  then "%Y-%m-%dT%H:%M:%S.%f" else "%Y-%m-%dT%H:%M:%S".

(** The [for share in shares] loop: the date is parsed first, then the two
    running totals are increased.  It returns the records with their parsed
    dates. *)
Fixpoint shares_loop (shares : list share_json) : M t (list share_detail) :=
  match shares with
  | [] => ret []
  | share :: rest =>
      do date <- lift (py_strptime (dateExecuted share) (str_format share));
      modify (fun c => set_shares_owned (_shares_owned c + sharesOwned share) c) ;;
      modify (fun c => set_investment
                (_investment c + pricePerShare share * inject_Z (sharesOwned share))%Q c) ;;
      do details <- shares_loop rest;
      ret (mkShareDetail share date :: details)
  end.

Definition _update_shares (resp : Response shares_json)
  : M t (Response shares_json) :=
  lift (raise_for_status resp) ;;
  let shares_info := json resp in
  modify (set_contract_name (contractName shares_info)) ;;
  let shares := shares shares_info in
  modify (set_my_prediction
            match shares with
            | [] => None
            | first :: _ => Some (predictionType first)
            end) ;;
  modify (set_shares_owned 0) ;;
  modify (set_investment 0) ;;
  do details <- shares_loop shares;
  modify (set_share_details details) ;;
  ret resp.

Definition mean_price_per_share (c : t) : result Q :=
  py_truediv (investment c) (shares_owned c).

(** *** Own orders *)

(** [self._my_orders[raw_order["tradeType"]].append(order)] *)
Definition append_order (k : Z) (order : OwnOrder) : M t unit :=
  fun c => match getitem (_my_orders c) k with
           | inl e => (c, inl e)
           | inr bucket =>
               (set_my_orders (<[k := (bucket ++ [order])%list]> (_my_orders c)) c, inr tt)
           end.

Fixpoint offers_loop (raw_orders : list offer_json) : M t unit :=
  match raw_orders with
  | [] => ret tt
  | raw_order :: rest =>
      do order_date <- lift (py_strptime (dateCreated raw_order) "%Y-%m-%dT%H:%M:%S.%f");
      let order :=
        mkOwnOrder (offerId raw_order) (contractId raw_order)
                   (offer_pricePerShare raw_order) (quantity raw_order)
                   (remainingQuantity raw_order) order_date (isProcessed raw_order) in
      append_order (tradeType raw_order) order ;;
      offers_loop rest
  end.

(** [{k: [] for k in range(4)}] *)
Definition empty_buckets : gmap Z (list OwnOrder) :=
  <[3 := []]> (<[2 := []]> (<[1 := []]> (<[0 := []]> ∅))).

Definition _update_my_orders (resp : Response offers_json)
  : M t (Response offers_json) :=
  lift (raise_for_status resp) ;;
  let my_orders := json resp in
  modify (set_my_orders empty_buckets) ;;
  offers_loop (offers my_orders) ;;
  ret resp.

Definition my_no_bids (c : t) : result (list OwnOrder) := getitem (_my_orders c) 0.
Definition my_yes_bids (c : t) : result (list OwnOrder) := getitem (_my_orders c) 1.
Definition my_no_asks (c : t) : result (list OwnOrder) := getitem (_my_orders c) 2.
Definition my_yes_asks (c : t) : result (list OwnOrder) := getitem (_my_orders c) 3.

(** [any(self._my_orders.values())]: some bucket is not empty. *)
Definition have_open_orders (c : t) : bool :=
  existsb (fun bucket : list OwnOrder => match bucket with [] => false | _ => true end)
          (map snd (map_to_list (_my_orders c))).

(** [update_all], from the three responses [concurrent_get] returned. *)
Definition update_all
    (responses : Response orderbook_json * Response shares_json * Response offers_json)
  : M t (Response orderbook_json * Response shares_json * Response offers_json) :=
  let '(r0, r1, r2) := responses in
  _update_order_book r0 ;;
  _update_shares r1 ;;
  _update_my_orders r2 ;;
  ret responses.

End with_runtime.
End Contract.

(** ** market.py *)

Module Market.

(** What an attribute of a [Market] object holds. *)
Inductive value : Type :=
  | VNone
  | VBool (b : bool)
  | VInt (z : Z)
  | VDecimal (q : Q)
  | VStr (s : string)
  | VDatetime (d : datetime)
  | VList (l : list Z).

(** The object: its attributes by name. *)
Abbreviation t := (gmap string value).

(** The market-info payload.  The code looks into ["dateEndString"] and
    ["dateOpened"] only and stores the other values as they come. *)
Record info_json : Type := mkInfo {
  marketName : value;
  marketType : value;
  dateEndString : string;
  isActive : value;
  rule : value;
  userHasOwnership : value;
  userHasTradeHistory : value;
  userInvestment : value;
  userMaxPayout : value;
  info_ : value;
  dateOpened : string;
  isMarketWatched : value;
  status : value;
  isOpen : value;
  isOpenStatusMessage : value;
  isTradingSuspended : value;
  isTradingSuspendedMessage : value;
  isEngineBusy : value;
  isEngineBusyMessage : value
}.

Record contract_json : Type := mkContract {
  contractId : Z
}.

(** [self.<name> = v] *)
Definition setattr (name : string) (v : value) : M t unit :=
  modify (fun m : t => <[name := v]> m).

Section with_runtime.
Context `{Runtime}.

(** [end_date.astimezone(pytz.timezone("US/Eastern"))
       .astimezone(pytz.timezone("UTC")).replace(tzinfo=None)] for the naive
    [end_date] that [strptime] returns.  [astimezone] presumes a naive
    datetime to be in the system's local zone, so the instant is
    [end_date - local_utcoffset end_date]; the two conversions that follow
    keep the instant, and the result is its UTC civil time. *)
Definition astimezone_eastern_utc (end_date : datetime) : result datetime :=
  datetime_sub_seconds end_date (local_utcoffset end_date).

Definition _update_info (resp : Response info_json) : M t (Response info_json) :=
  lift (raise_for_status resp) ;;
  let mkt_info := json resp in
  setattr "_market_name" (marketName mkt_info) ;;
  setattr "_market_type" (marketType mkt_info) ;;
  (if String.eqb (dateEndString mkt_info) "N/A" then
     setattr "_end_date" VNone
   else
     do end_date <- lift (py_strptime (str_to 19 (dateEndString mkt_info))
                                      "%m/%d/%Y %I:%M %p");
     let tz_string := strip " ()" (str_from 19 (dateEndString mkt_info)) in
     if String.eqb tz_string "ET" then
       do utc <- lift (astimezone_eastern_utc end_date);
       setattr "_end_date" (VDatetime utc)
     else
       raise NotImplementedError_timezone) ;;
  setattr "_is_active" (isActive mkt_info) ;;
  setattr "_rule" (rule mkt_info) ;;
  setattr "_have_ownership" (userHasOwnership mkt_info) ;;
  setattr "_have_trade_history" (userHasTradeHistory mkt_info) ;;
  setattr "_investment" (userInvestment mkt_info) ;;
  setattr "_max_payout" (userMaxPayout mkt_info) ;;
  setattr "_info" (info_ mkt_info) ;;
  do date_opened <- lift (py_strptime (dateOpened mkt_info) "%Y-%m-%dT%H:%M:%S.%f");
  setattr "_date_opened" (VDatetime date_opened) ;;
  setattr "_is_market_watched" (isMarketWatched mkt_info) ;;
  setattr "_status" (status mkt_info) ;;
  setattr "_is_open" (isOpen mkt_info) ;;
  setattr "_is_open_status_message" (isOpenStatusMessage mkt_info) ;;
  setattr "_is_trading_suspended" (isTradingSuspended mkt_info) ;;
  setattr "_is_trading_suspended_message" (isTradingSuspendedMessage mkt_info) ;;
  setattr "_is_engine_busy" (isEngineBusy mkt_info) ;;
  setattr "_is_engine_busy_message" (isEngineBusyMessage mkt_info) ;;
  ret resp.

Definition _update_contracts (resp : Response (list contract_json))
  : M t (Response (list contract_json)) :=
  lift (raise_for_status resp) ;;
  let contracts := json resp in
  setattr "_contract_ids" (VList (map contractId contracts)) ;;
  ret resp.

(** [update_all], from the two responses [concurrent_get] returned. *)
Definition update_all
    (responses : Response info_json * Response (list contract_json))
  : M t (Response info_json * Response (list contract_json)) :=
  _update_info (fst responses) ;;
  _update_contracts (snd responses) ;;
  ret responses.

(** How a call [Market(account, market_id)] ends. *)
Inductive construction : Type :=
  | TypeError_market_id        (* "Market ID must be int, not ..." *)
  | Raised (e : exn)           (* [update_all] raised: no object is returned *)
  | Constructed (m : t).

(** [__init__], with the responses its [update_all] receives.  The
    [account] attribute, a reference to the Account object, is not part of
    the attribute map. *)
Definition __init__ (market_id : pyval)
    (responses : Response info_json * Response (list contract_json)) : construction :=
  match market_id with
  | PyInt id =>
      match update_all responses (<["_market_id" := VInt id]> ∅) with
      | (m, inr _) => Constructed m
      | (_, inl e) => Raised e
      end
  | _ => TypeError_market_id
  end.

End with_runtime.

(** Properties: [None] stands for [AttributeError]. *)
Definition market_id (m : t) : option value := m !! "_market_id".
Definition market_name (m : t) : option value := m !! "_market_name".
Definition end_date (m : t) : option value := m !! "_end_date".
Definition contract_ids (m : t) : option value := m !! "_contract_ids".

(** The attributes written by [_update_info]. *)
Definition info_attributes : list string :=
  [ "_market_name"; "_market_type"; "_end_date"; "_is_active"; "_rule";
    "_have_ownership"; "_have_trade_history"; "_investment"; "_max_payout";
    "_info"; "_date_opened"; "_is_market_watched"; "_status"; "_is_open";
    "_is_open_status_message"; "_is_trading_suspended";
    "_is_trading_suspended_message"; "_is_engine_busy";
    "_is_engine_busy_message" ].

End Market.

(** ** account.py

    Balances and held positions.  Logging in, the token and its timer talk
    to the network and the clock and are not modelled. *)

Module Account.

Record balance_json : Type := mkBalance {
  accountBalanceDecimal : Q;
  portfolioBalanceDecimal : Q
}.

Record market_contract_json : Type := mkMarketContract {
  contractId : Z
}.

Record market_json : Type := mkMarket {
  marketId : Z;
  marketContracts : list market_contract_json
}.

(** The ["markets"] key may hold [null]. *)
Record profile_json : Type := mkProfile {
  isTradingSuspended : bool;
  isTradingSuspendedMessage : option string;
  markets : option (list market_json)
}.

(** The attributes of an [Account] object that the refreshes write. *)
Record t : Type := mk {
  _cash_balance : Q;
  _investment_balance : Q;
  _is_trading_suspended : bool;
  _is_trading_suspended_message : option string;
  _my_market_ids : list Z;
  _my_contract_ids : list Z
}.

Definition set_cash_balance (v : Q) (a : t) : t :=
  mk v (_investment_balance a) (_is_trading_suspended a)
     (_is_trading_suspended_message a) (_my_market_ids a) (_my_contract_ids a).
Definition set_investment_balance (v : Q) (a : t) : t :=
  mk (_cash_balance a) v (_is_trading_suspended a)
     (_is_trading_suspended_message a) (_my_market_ids a) (_my_contract_ids a).
Definition set_is_trading_suspended (v : bool) (a : t) : t :=
  mk (_cash_balance a) (_investment_balance a) v
     (_is_trading_suspended_message a) (_my_market_ids a) (_my_contract_ids a).
Definition set_is_trading_suspended_message (v : option string) (a : t) : t :=
  mk (_cash_balance a) (_investment_balance a) (_is_trading_suspended a)
     v (_my_market_ids a) (_my_contract_ids a).
Definition set_my_market_ids (v : list Z) (a : t) : t :=
  mk (_cash_balance a) (_investment_balance a) (_is_trading_suspended a)
     (_is_trading_suspended_message a) v (_my_contract_ids a).
Definition set_my_contract_ids (v : list Z) (a : t) : t :=
  mk (_cash_balance a) (_investment_balance a) (_is_trading_suspended a)
     (_is_trading_suspended_message a) (_my_market_ids a) v.

Definition _update_balances (resp : Response balance_json)
  : M t (Response balance_json) :=
  lift (raise_for_status resp) ;;
  let balances := json resp in
  modify (set_cash_balance (accountBalanceDecimal balances)) ;;
  modify (set_investment_balance (portfolioBalanceDecimal balances)) ;;
  ret resp.

Definition cash_balance (a : t) : Q := _cash_balance a.
Definition investment_balance (a : t) : Q := _investment_balance a.

(** [for c in mkt["marketContracts"]: self._my_contract_ids.append(...)] *)
Fixpoint contracts_loop (cs : list market_contract_json) : M t unit :=
  match cs with
  | [] => ret tt
  | c :: rest =>
      modify (fun a => set_my_contract_ids (_my_contract_ids a ++ [contractId c])%list a) ;;
      contracts_loop rest
  end.

(** [for mkt in contracts_dict["markets"]: ...] *)
Fixpoint markets_loop (mkts : list market_json) : M t unit :=
  match mkts with
  | [] => ret tt
  | mkt :: rest =>
      modify (fun a => set_my_market_ids (_my_market_ids a ++ [marketId mkt])%list a) ;;
      contracts_loop (marketContracts mkt) ;;
      markets_loop rest
  end.

Definition _update_contracts (resp : Response profile_json)
  : M t (Response profile_json) :=
  lift (raise_for_status resp) ;;
  let contracts_dict := json resp in
  modify (set_is_trading_suspended (isTradingSuspended contracts_dict)) ;;
  modify (set_is_trading_suspended_message (isTradingSuspendedMessage contracts_dict)) ;;
  modify (set_my_market_ids []) ;;
  modify (set_my_contract_ids []) ;;
  match markets contracts_dict with
  | Some mkts => markets_loop mkts
  | None => ret tt
  end ;;
  ret resp.

Definition is_trading_suspended (a : t) : bool := _is_trading_suspended a.
Definition is_trading_suspended_message (a : t) : option string :=
  _is_trading_suspended_message a.
Definition my_contract_ids (a : t) : list Z := _my_contract_ids a.
Definition my_market_ids (a : t) : list Z := _my_market_ids a.

(** [update_all], from the two responses [concurrent_get] returned. *)
Definition update_all (responses : Response balance_json * Response profile_json)
  : M t (Response balance_json * Response profile_json) :=
  _update_balances (fst responses) ;;
  _update_contracts (snd responses) ;;
  ret responses.

End Account.

(** ** A model of [datetime.strptime]

    CPython's [_strptime] turns the format into a regular expression
    (directive by directive, a run of white space into [\s+], compiled with
    [IGNORECASE]), takes the first match the backtracking matcher finds from
    the start of the data, rejects it when data remains, and builds the
    datetime, which checks the calendar.  The model covers the directives
    this package uses, on ASCII data, in the C locale. *)

Module Strptime.

Inductive directive : Type := dY | dm | dd | dH | dI | dM | dS | df | dp.

Inductive item : Type :=
  | Literal (c : ascii)
  | Whitespace
  | Directive (d : directive).

Definition directive_of (c : ascii) : option directive :=
  if Ascii.eqb c "Y" then Some dY else
  if Ascii.eqb c "m" then Some dm else
  if Ascii.eqb c "d" then Some dd else
  if Ascii.eqb c "H" then Some dH else
  if Ascii.eqb c "I" then Some dI else
  if Ascii.eqb c "M" then Some dM else
  if Ascii.eqb c "S" then Some dS else
  if Ascii.eqb c "f" then Some df else
  if Ascii.eqb c "p" then Some dp else None.

Definition is_space (c : ascii) : bool :=
  let n := Z.of_nat (nat_of_ascii c) in
  ((9 <=? n) && (n <=? 13)) || ((28 <=? n) && (n <=? 32)).

(** The format as a list of items; [None] for a directive outside the
    model or a stray [%]. *)
Fixpoint compile (fmt : string) : option (list item) :=
  match fmt with
  | EmptyString => Some []
  | String c rest =>
      if Ascii.eqb c "%" then
        match rest with
        | EmptyString => None
        | String d rest' =>
            match directive_of d, compile rest' with
            | Some d, Some items => Some (Directive d :: items)
            | _, _ => None
            end
        end
      else
        match compile rest with
        | None => None
        | Some items =>
            if is_space c then
              match items with
              | Whitespace :: _ => Some items
              | _ => Some (Whitespace :: items)
              end
            else Some (Literal c :: items)
        end
  end.

Definition digit (c : ascii) : option Z :=
  let n := Z.of_nat (nat_of_ascii c) in
  if (48 <=? n) && (n <=? 57) then Some (n - 48) else None.

(** [w] digits, read as a number. *)
Fixpoint read_digits (w : nat) (s : list ascii) (acc : Z) : option (Z * list ascii) :=
  match w with
  | O => Some (acc, s)
  | S w' =>
      match s with
      | c :: s' =>
          match digit c with
          | Some n => read_digits w' s' (10 * acc + n)
          | None => None
          end
      | [] => None
      end
  end.

(** One alternative of a directive's pattern: the value it reads and the
    data that is left. *)
Definition alt : Type := list ascii -> option (Z * list ascii).

(** [w] digits whose value lies in [lo..hi]: [1[0-2]] is [digits 2 10 12],
    [0[1-9]] is [digits 2 1 9], [[0-5]\d] is [digits 2 0 59]. *)
Definition digits (w : nat) (lo hi : Z) : alt :=
  fun s => match read_digits w s 0 with
           | Some (v, s') => if (lo <=? v) && (v <=? hi) then Some (v, s') else None
           | None => None
           end.

Definition space_digit : alt :=
  fun s => match s with
           | c :: s' => if Ascii.eqb c " " then digits 1 1 9 s' else None
           | [] => None
           end.

(** [[0-9]{1,6}] read at width [w], as microseconds. *)
Definition fraction (w : nat) : alt :=
  fun s => match read_digits w s 0 with
           | Some (v, s') => Some (v * 10 ^ Z.of_nat (6 - w), s')
           | None => None
           end.

Definition lower (c : ascii) : ascii :=
  let n := nat_of_ascii c in
  if (65 <=? n)%nat && (n <=? 90)%nat then ascii_of_nat (n + 32) else c.

Definition am_pm (first : ascii) (v : Z) : alt :=
  fun s => match s with
           | a :: b :: s' =>
               if Ascii.eqb (lower a) first && Ascii.eqb (lower b) "m"
               then Some (v, s') else None
           | _ => None
           end.

(** The alternatives of each directive, in the order of the pattern. *)
Definition alternatives (d : directive) : list alt :=
  match d with
  | dY => [digits 4 0 9999]
  | dm | dI => [digits 2 10 12; digits 2 1 9; digits 1 1 9]
  | dd => [digits 2 30 31; digits 2 10 29; digits 2 1 9; digits 1 1 9; space_digit]
  | dH => [digits 2 20 23; digits 2 0 19; digits 1 0 9]
  | dM => [digits 2 0 59; digits 1 0 9]
  | dS => [digits 2 60 61; digits 2 0 59; digits 1 0 9]
  | df => [fraction 6; fraction 5; fraction 4; fraction 3; fraction 2; fraction 1]
  | dp => [am_pm "a" 0; am_pm "p" 1]
  end.

Fixpoint leading_spaces (s : list ascii) : nat :=
  match s with
  | c :: s' => if is_space c then S (leading_spaces s') else O
  | [] => O
  end.

(** [\s+], greedy: the longest run first, then shorter ones. *)
Definition spaces (s : list ascii) : list alt :=
  map (fun n => fun s : list ascii => Some (0, drop n s))
      (rev (seq 1 (leading_spaces s))).

(** The first alternative after which the rest of the pattern matches. *)
Fixpoint first_match {A} (alts : list alt) (s : list ascii)
    (rest : Z -> list ascii -> option A) : option A :=
  match alts with
  | [] => None
  | a :: alts' =>
      match a s with
      | Some (v, s') =>
          match rest v s' with
          | Some r => Some r
          | None => first_match alts' s rest
          end
      | None => first_match alts' s rest
      end
  end.

(** The groups of the match. *)
Record fields : Type := mkFields {
  f_Y : option Z; f_m : option Z; f_d : option Z;
  f_H : option Z; f_I : option Z; f_M : option Z;
  f_S : option Z; f_f : option Z; f_p : option Z
}.

Definition no_fields : fields :=
  mkFields None None None None None None None None None.

Definition set_field (d : directive) (v : Z) (f : fields) : fields :=
  match d with
  | dY => mkFields (Some v) (f_m f) (f_d f) (f_H f) (f_I f) (f_M f) (f_S f) (f_f f) (f_p f)
  | dm => mkFields (f_Y f) (Some v) (f_d f) (f_H f) (f_I f) (f_M f) (f_S f) (f_f f) (f_p f)
  | dd => mkFields (f_Y f) (f_m f) (Some v) (f_H f) (f_I f) (f_M f) (f_S f) (f_f f) (f_p f)
  | dH => mkFields (f_Y f) (f_m f) (f_d f) (Some v) (f_I f) (f_M f) (f_S f) (f_f f) (f_p f)
  | dI => mkFields (f_Y f) (f_m f) (f_d f) (f_H f) (Some v) (f_M f) (f_S f) (f_f f) (f_p f)
  | dM => mkFields (f_Y f) (f_m f) (f_d f) (f_H f) (f_I f) (Some v) (f_S f) (f_f f) (f_p f)
  | dS => mkFields (f_Y f) (f_m f) (f_d f) (f_H f) (f_I f) (f_M f) (Some v) (f_f f) (f_p f)
  | df => mkFields (f_Y f) (f_m f) (f_d f) (f_H f) (f_I f) (f_M f) (f_S f) (Some v) (f_p f)
  | dp => mkFields (f_Y f) (f_m f) (f_d f) (f_H f) (f_I f) (f_M f) (f_S f) (f_f f) (Some v)
  end.

Fixpoint match_items (items : list item) (s : list ascii) (f : fields)
  : option (fields * list ascii) :=
  match items with
  | [] => Some (f, s)
  | Literal c :: items' =>
      match s with
      | c' :: s' =>
          if Ascii.eqb (lower c) (lower c') then match_items items' s' f else None
      | [] => None
      end
  | Whitespace :: items' =>
      first_match (spaces s) s (fun _ s' => match_items items' s' f)
  | Directive d :: items' =>
      first_match (alternatives d) s (fun v s' => match_items items' s' (set_field d v f))
  end.

Definition is_leap (y : Z) : bool :=
  (y mod 4 =? 0) && (negb (y mod 100 =? 0) || (y mod 400 =? 0)).

Definition days_in_month (y m : Z) : Z :=
  if m =? 2 then (if is_leap y then 29 else 28)
  else if (m =? 4) || (m =? 6) || (m =? 9) || (m =? 11) then 30
  else 31.

(** The datetime of the groups: defaults 1900-01-01 00:00:00, a 12-hour
    clock hour adjusted by AM/PM, and the checks of the [datetime]
    constructor. *)
Definition build (f : fields) : option datetime :=
  let y := default 1900 (f_Y f) in
  let m := default 1 (f_m f) in
  let d := default 1 (f_d f) in
  let h :=
    match f_I f with
    | Some i =>
        match f_p f with
        | Some 1 => if i =? 12 then 12 else i + 12
        | _ => if i =? 12 then 0 else i
        end
    | None => default 0 (f_H f)
    end in
  let s := default 0 (f_S f) in
  if (1 <=? y) && (d <=? days_in_month y m) && (s <=? 59)
  then Some (mkDatetime y m d h (default 0 (f_M f)) s (default 0 (f_f f)))
  else None.

Definition strptime (data fmt : string) : option datetime :=
  match compile fmt with
  | None => None
  | Some items =>
      match match_items items (list_ascii_of_string data) no_fields with
      | Some (f, []) => build f
      | _ => None
      end
  end.

End Strptime.

(** A runtime to evaluate with: the [strptime] model, a system zone at a
    fixed offset from UTC, and a decimal context in which the quotients
    taken are exact. *)
Definition fixed_zone_runtime (utcoffset : Z) : Runtime :=
  {| strptime := Strptime.strptime;
     local_utcoffset := fun _ => utcoffset;
     truediv := fun a b => Qred (a / inject_Z b) |}.

(** ** List objects and references

    Above, a list is its contents.  Python lists are objects: an attribute
    holds a reference, and a caller who is handed that reference can change
    the list in place.  Here the lists live in a store, the objects hold
    locations, and each list-valued property is written with the
    allocation it performs. *)

Module Aliasing.

Abbreviation loc := positive.

(** What the lists of this package contain; all of it is immutable. *)
Inductive item : Type :=
  | IInt (z : Z)
  | ITuple (p : Q) (q : Z)
  | IOrder (o : Contract.OwnOrder).

Abbreviation store := (gmap loc (list item)).

(** A new list object with contents [v]. *)
Definition new_list (v : list item) (h : store) : loc * store :=
  let r := fresh (dom h) in (r, <[r := v]> h).

(** [l.copy()] *)
Definition list_copy (l : loc) (h : store) : result (loc * store) :=
  match h !! l with
  | Some v => inr (new_list v h)
  | None => inl AttributeError
  end.

(** The body of [[(1 - p, q) for p, q in ...]] on one element. *)
Definition complement_item (x : item) : result item :=
  match x with
  | ITuple p q => inr (ITuple (1 - p)%Q q)
  | _ => inl TypeError_unpack
  end.

Fixpoint complement_items (v : list item) : result (list item) :=
  match v with
  | [] => inr []
  | x :: v' =>
      match complement_item x with
      | inl e => inl e
      | inr y => match complement_items v' with
                 | inl e => inl e
                 | inr w => inr (y :: w)
                 end
      end
  end.

(** [[(1 - p, q) for p, q in l]] *)
Definition complement_comprehension (l : loc) (h : store) : result (loc * store) :=
  match h !! l with
  | Some v =>
      match complement_items v with
      | inl e => inl e
      | inr w => inr (new_list w h)
      end
  | None => inl AttributeError
  end.

(** [d[k]] followed by [use]. *)
Definition at_key (d : gmap Z loc) (k : Z)
    (use : loc -> store -> result (loc * store)) (h : store)
  : result (loc * store) :=
  match d !! k with
  | Some l => use l h
  | None => inl (KeyError k)
  end.

(** Any in-place change of the list object at [r] (append, sort, item
    assignment, [del], [clear]): it has contents [v] afterwards. *)
Definition mutate (r : loc) (v : list item) (h : store) : store := <[r := v]> h.

Module Market.
Record t : Type := mk { _contract_ids : loc }.
Definition contract_ids (m : t) := list_copy (_contract_ids m).
End Market.

Module Account.
Record t : Type := mk { _my_contract_ids : loc; _my_market_ids : loc }.
Definition my_contract_ids (a : t) := list_copy (_my_contract_ids a).
Definition my_market_ids (a : t) := list_copy (_my_market_ids a).
End Account.

Module Contract.
Record t : Type := mk { _order_book : gmap Z loc; _my_orders : gmap Z loc }.
Definition no_asks (c : t) := at_key (_order_book c) 0 complement_comprehension.
Definition yes_asks (c : t) := at_key (_order_book c) 1 list_copy.
Definition no_bids (c : t) := at_key (_order_book c) 1 complement_comprehension.
Definition yes_bids (c : t) := at_key (_order_book c) 0 list_copy.
Definition my_no_bids (c : t) := at_key (_my_orders c) 0 list_copy.
Definition my_yes_bids (c : t) := at_key (_my_orders c) 1 list_copy.
Definition my_no_asks (c : t) := at_key (_my_orders c) 2 list_copy.
Definition my_yes_asks (c : t) := at_key (_my_orders c) 3 list_copy.
End Contract.

(** The list-valued properties of the three classes. *)
Inductive accessor : Type :=
  | Market_contract_ids
  | Account_my_market_ids
  | Account_my_contract_ids
  | Contract_yes_asks
  | Contract_yes_bids
  | Contract_no_asks
  | Contract_no_bids
  | Contract_my_no_bids
  | Contract_my_yes_bids
  | Contract_my_no_asks
  | Contract_my_yes_asks.

Record objects : Type := mkObjects {
  market : Market.t;
  account : Account.t;
  contract : Contract.t
}.

(** Reading a property: the reference it returns and the store after. *)
Definition read (a : accessor) (o : objects) : store -> result (loc * store) :=
  match a with
  | Market_contract_ids => Market.contract_ids (market o)
  | Account_my_market_ids => Account.my_market_ids (account o)
  | Account_my_contract_ids => Account.my_contract_ids (account o)
  | Contract_yes_asks => Contract.yes_asks (contract o)
  | Contract_yes_bids => Contract.yes_bids (contract o)
  | Contract_no_asks => Contract.no_asks (contract o)
  | Contract_no_bids => Contract.no_bids (contract o)
  | Contract_my_no_bids => Contract.my_no_bids (contract o)
  | Contract_my_yes_bids => Contract.my_yes_bids (contract o)
  | Contract_my_no_asks => Contract.my_no_asks (contract o)
  | Contract_my_yes_asks => Contract.my_yes_asks (contract o)
  end.

End Aliasing.

(** ** The statements of the specification

    Definitions written after the words of the specification, to be
    compared with the code above. *)

Module Spec.

(** Two books that list the same prices and quantities. *)
Definition same_book (a b : list (Q * Z)) : Prop :=
  Forall2 (fun x y => (fst x == fst y)%Q /\ snd x = snd y) a b.

(** "yes-asks = canonical yes side as-is; yes-bids = canonical no side
    as-is; no-asks = canonical yes side with each price replaced by
    (1 - price); no-bids = canonical no side with each price replaced by
    (1 - price)." *)
Definition derived_views (c : Contract.t) (yes no : list (Q * Z)) : Prop :=
  (exists v, Contract.yes_asks c = inr v /\ same_book v yes) /\
  (exists v, Contract.yes_bids c = inr v /\ same_book v no) /\
  (exists v, Contract.no_asks c = inr v /\ same_book v (complement_prices yes)) /\
  (exists v, Contract.no_bids c = inr v /\ same_book v (complement_prices no)).

(** Prices that do not decrease, or do not increase, along the list. *)
Definition ascending (l : list (Q * Z)) : Prop :=
  forall (i j : nat) a b,
    (i < j)%nat -> l !! i = Some a -> l !! j = Some b -> (fst a <= fst b)%Q.

Definition descending (l : list (Q * Z)) : Prop :=
  forall (i j : nat) a b,
    (i < j)%nat -> l !! i = Some a -> l !! j = Some b -> (fst b <= fst a)%Q.

(** "the canonical yes and no sides are each sorted ascending by price ...
    with yes-asks and no-bids each ascending by price" *)
Definition sorted_views (c : Contract.t) : Prop :=
  (exists yes, Contract._order_book c !! 1 = Some yes /\ ascending yes) /\
  (exists no, Contract._order_book c !! 0 = Some no /\ ascending no) /\
  (exists v, Contract.yes_asks c = inr v /\ ascending v) /\
  (exists v, Contract.no_bids c = inr v /\ ascending v).

(** "the sum of sharesOwned over all records" and "the sum of
    pricePerShare * sharesOwned over all records" *)
Definition total_shares (shares : list Contract.share_json) : Z :=
  foldr (fun s n => Contract.sharesOwned s + n) 0 shares.

Definition total_cost (shares : list Contract.share_json) : Q :=
  foldr (fun s x => (Contract.pricePerShare s * inject_Z (Contract.sharesOwned s) + x)%Q)
        0%Q shares.

(** The four trade methods. *)
Inductive action : Type := Buy | Sell.
Inductive side : Type := No | Yes.

Definition investment_cap : Q := 850.

(** The side of the position held: [predictionType] 0 is No, 1 is Yes. *)
Definition held (c : Contract.t) : option side :=
  match Contract.my_prediction c with
  | None => None
  | Some p => Some (if p =? 0 then No else Yes)
  end.

(** The five checks, in the order of the specification; the error is the
    one of the first check that fails. *)
Definition validate (a : action) (s : side) (price : Q) (quantity : pyval)
    (c : Contract.t) : result unit :=
  (* 1 *)
  if negb ((1 <=? py_int (100 * price)) && (py_int (100 * price) <=? 99))
  then inl ValueError_price else
  (* 2 *)
  match quantity with
  | PyInt n =>
      if n <=? 0 then inl ValueError_quantity else
      (* 3 *)
      match held c, s with
      | Some Yes, No => inl ValueError_own_yes
      | Some No, Yes => inl ValueError_own_no
      | _, _ =>
          match a with
          | Sell => (* 4 *)
              if n >? Contract.shares_owned c then inl ValueError_sell else inr tt
          | Buy => (* 5 *)
              if Qlt_bool investment_cap (price * inject_Z n + Contract.investment c)
              then inl ValueError_cap else inr tt
          end
      end
  | _ => inl TypeError_quantity
  end.


(** The public method of an action and a side. *)
Definition trade_method {J} (post : Contract.trade_data -> Response J)
    (a : action) (s : side) :=
  match a, s with
  | Buy, No => Contract.buy_no post
  | Buy, Yes => Contract.buy_yes post
  | Sell, No => Contract.sell_no post
  | Sell, Yes => Contract.sell_yes post
  end.

(** "both views update together or (on failure) neither is applied": a
    refresh-all with a failed response leaves the market as it was. *)
Definition refresh_all_atomic `{Runtime}
    (responses : Response Market.info_json * Response (list Market.contract_json))
    (m : Market.t) : Prop :=
  failed (fst responses) \/ failed (snd responses) ->
  fst (Market.update_all responses m) = m.

(** US Eastern time under the rule in force since 2007: daylight time from
    02:00 on the second Sunday of March to 02:00 on the first Sunday of
    November. *)
Definition weekday (y m d : Z) : Z := (days_from_civil y m d + 4) mod 7.

Definition first_sunday (y m : Z) : Z := 1 + (7 - weekday y m 1) mod 7.

Definition eastern_utcoffset (t : datetime) : Z :=
  let clock := (month t * 100 + day t) * 100 + hour t in
  let start := (300 + first_sunday (year t) 3 + 7) * 100 + 2 in
  let stop := (1100 + first_sunday (year t) 11) * 100 + 2 in
  if (start <=? clock) && (clock <? stop) then -4 * 3600 else -5 * 3600.

(** "an end-date string ending in ET converts correctly to the equivalent
    UTC instant": the civil time is Eastern time. *)
Definition eastern_to_utc (t : datetime) : result datetime :=
  datetime_sub_seconds t (eastern_utcoffset t).

End Spec.

(** ** Sample data *)

Module Examples.

(** A contract in which the user holds 800 Yes shares bought for $400, with
    a book of two entries on the yes side and two on the no side. *)
Definition held_yes : Contract.t :=
  Contract.mk 7 (<[0 := [((3#10)%Q, 5); ((35#100)%Q, 1)]]>
                   (<[1 := [((4#10)%Q, 10); ((5#10)%Q, 2)]]> ∅))
              "Sample" (Some 1) 800 400 [] Contract.empty_buckets.

(** The same contract with no position. *)
Definition flat : Contract.t :=
  Contract.mk 7 (<[0 := [((3#10)%Q, 5); ((35#100)%Q, 1)]]>
                   (<[1 := [((4#10)%Q, 10); ((5#10)%Q, 2)]]> ∅))
              "Sample" None 0 0 [] Contract.empty_buckets.

(** An order-book payload that lists its orders out of order. *)
Definition book_payload : Response Contract.orderbook_json :=
  mkResponse 200
    (Contract.mkOrderBook
       [Contract.mkOrder (5#10) 2; Contract.mkOrder (4#10) 10]
       [Contract.mkOrder (35#100) 1; Contract.mkOrder (3#10) 5]).

Definition shares_payload : Response Contract.shares_json :=
  mkResponse 200
    (Contract.mkShares "Sample"
       [Contract.mkShare 1 10 (45#100) "2019-03-01T10:00:00.5";
        Contract.mkShare 1 30 (55#100) "2019-03-02T11:30:00"]).

Definition no_shares_payload : Response Contract.shares_json :=
  mkResponse 200 (Contract.mkShares "Sample" []).

(** A session whose POST is always answered with 200. *)
Definition post_ok (_ : Contract.trade_data) : Response unit := mkResponse 200 tt.

Definition info_payload (date_end : string) : Response Market.info_json :=
  mkResponse 200
    (Market.mkInfo (Market.VStr "Sample market") (Market.VInt 3) date_end
       (Market.VBool true) (Market.VStr "rule") (Market.VBool false)
       (Market.VBool false) (Market.VDecimal 0) (Market.VDecimal 0)
       Market.VNone "2019-01-02T03:04:05.678" (Market.VBool false)
       (Market.VStr "Open") (Market.VBool true) Market.VNone
       (Market.VBool false) Market.VNone (Market.VBool false) Market.VNone).

Definition contracts_payload (status : Z) : Response (list Market.contract_json) :=
  mkResponse status [Market.mkContract 11; Market.mkContract 12].

(** A market as an earlier refresh left it. *)
Definition old_market : Market.t :=
  <["_contract_ids" := Market.VList [1; 2]]>
    (<["_market_name" := Market.VStr "Old name"]>
       (<["_market_id" := Market.VInt 5]> ∅)).

(** Three list objects in a store, and objects that refer to them. *)
Definition sample_store : gmap positive (list Aliasing.item) :=
  <[3%positive := [Aliasing.ITuple (3#10) 5]]>
    (<[2%positive := [Aliasing.ITuple (4#10) 10; Aliasing.ITuple (5#10) 2]]>
       (<[1%positive := [Aliasing.IInt 11; Aliasing.IInt 12]]> ∅)).

Definition sample_objects : Aliasing.objects :=
  Aliasing.mkObjects
    (Aliasing.Market.mk 1)
    (Aliasing.Account.mk 1 1)
    (Aliasing.Contract.mk (<[0 := 3%positive]> (<[1 := 2%positive]> ∅)) ∅).

End Examples.

(** More sample data: own offers, an account and its payloads. *)

Module Samples.

Definition offer (id type : Z) : Contract.offer_json :=
  Contract.mkOffer id 7 (45#100) 10 4 "2019-03-01T10:00:00.5" false type.

(** Two buy-yes offers around one buy-no offer. *)
Definition offers_payload : Response Contract.offers_json :=
  mkResponse 200 (Contract.mkOffers [offer 1 1; offer 2 0; offer 3 1]).

(** The second offer has a trade type the client does not know. *)
Definition odd_offers_payload : Response Contract.offers_json :=
  mkResponse 200 (Contract.mkOffers [offer 1 1; offer 2 7; offer 3 0]).

Definition account : Account.t :=
  Account.mk 100 50 false None [1] [10; 11].

Definition balance_payload : Response Account.balance_json :=
  mkResponse 200 (Account.mkBalance (2505#10) 120).

(** Positions in two markets, of two contracts and of one. *)
Definition profile_payload (status : Z) : Response Account.profile_json :=
  mkResponse status
    (Account.mkProfile false None
       (Some [Account.mkMarket 5 [Account.mkMarketContract 51; Account.mkMarketContract 52];
              Account.mkMarket 6 [Account.mkMarketContract 61]])).

End Samples.

(** * Theorems *)

(** ** The order of tuples and [list_sort] *)

(** [a <= b] on tuples: [b < a] does not hold. *)
Definition tuple_le (a b : Q * Z) : Prop :=
  (fst a < fst b)%Q \/ ((fst a == fst b)%Q /\ snd a <= snd b).

Lemma Qlt_bool_iff (a b : Q) : Qlt_bool a b = true <-> (a < b)%Q.
Proof.
  unfold Qlt_bool. rewrite negb_true_iff.
  destruct (Qle_bool b a) eqn:E.
  - apply Qle_bool_iff in E. split; [discriminate | intros; lra].
  - split; [intros _ | reflexivity].
    destruct (Qlt_le_dec a b) as [Hlt | Hle]; [exact Hlt |].
    apply Qle_bool_iff in Hle. congruence.
Qed.

Lemma tuple_lt_false (a b : Q * Z) : tuple_lt b a = false <-> tuple_le a b.
Proof.
  unfold tuple_lt, tuple_le.
  destruct (Qeq_bool (fst b) (fst a)) eqn:E.
  - apply Qeq_bool_iff in E. rewrite Z.ltb_ge. split.
    + intros Hq. right. split; [lra | exact Hq].
    + intros [Hlt | [_ Hq]]; [lra | exact Hq].
  - apply Qeq_bool_neq in E.
    destruct (Qlt_bool (fst b) (fst a)) eqn:L.
    + apply Qlt_bool_iff in L. split; [discriminate |].
      intros [Hlt | [Heq _]]; lra.
    + split; [intros _ | reflexivity].
      assert (~ (fst b < fst a)%Q) as Hn
        by (intros Hlt; apply Qlt_bool_iff in Hlt; congruence).
      left. destruct (Qlt_le_dec (fst a) (fst b)) as [Hlt | Hle]; [exact Hlt |].
      exfalso. apply Qle_lt_or_eq in Hle. destruct Hle as [Hlt | Heq]; [auto |].
      apply E. exact Heq.
Qed.

Lemma tuple_lt_true (a b : Q * Z) : tuple_lt a b = true -> tuple_le a b.
Proof.
  unfold tuple_lt, tuple_le.
  destruct (Qeq_bool (fst a) (fst b)) eqn:E.
  - apply Qeq_bool_iff in E. rewrite Z.ltb_lt. intros Hq. right. split; [exact E | lia].
  - intros L. apply Qlt_bool_iff in L. left. exact L.
Qed.

Lemma tuple_le_trans (a b c : Q * Z) : tuple_le a b -> tuple_le b c -> tuple_le a c.
Proof.
  unfold tuple_le. intros [H1 | [H1 H1']] [H2 | [H2 H2']].
  - left. lra.
  - left. lra.
  - left. lra.
  - right. split; [lra | lia].
Qed.

Lemma tuple_le_price (a b : Q * Z) : tuple_le a b -> (fst a <= fst b)%Q.
Proof. intros [H | [H _]]; lra. Qed.

Lemma insert_sorted_Forall (P : Q * Z -> Prop) x l :
  P x -> Forall P l -> Forall P (insert_sorted x l).
Proof.
  intros Hx Hl. induction Hl as [| y l Hy Hl IH]; simpl.
  - repeat constructor. exact Hx.
  - destruct (tuple_lt y x); repeat constructor; auto.
Qed.

Lemma insert_sorted_StronglySorted x l :
  StronglySorted tuple_le l -> StronglySorted tuple_le (insert_sorted x l).
Proof.
  induction 1 as [| y l Hl IH Hy]; simpl.
  - repeat constructor.
  - destruct (tuple_lt y x) eqn:E.
    + constructor; [exact IH |].
      apply insert_sorted_Forall; [apply tuple_lt_true, E | exact Hy].
    + apply tuple_lt_false in E. constructor.
      * constructor; assumption.
      * constructor; [exact E |].
        eapply Forall_impl; [exact Hy |]. intros z Hz. eapply tuple_le_trans; eauto.
Qed.

Lemma list_sort_StronglySorted l : StronglySorted tuple_le (list_sort l).
Proof.
  induction l as [| x l IH]; simpl.
  - constructor.
  - apply insert_sorted_StronglySorted, IH.
Qed.

Lemma insert_sorted_Permutation x l : Permutation (x :: l) (insert_sorted x l).
Proof.
  induction l as [| y l IH]; simpl.
  - reflexivity.
  - destruct (tuple_lt y x).
    + rewrite perm_swap. apply perm_skip, IH.
    + reflexivity.
Qed.

Lemma list_sort_Permutation l : Permutation l (list_sort l).
Proof.
  induction l as [| x l IH]; simpl.
  - reflexivity.
  - rewrite <- insert_sorted_Permutation. apply perm_skip, IH.
Qed.

Lemma StronglySorted_ascending l : StronglySorted tuple_le l -> Spec.ascending l.
Proof.
  induction 1 as [| x l Hl IH Hx]; intros i j a b Hij Ha Hb.
  - rewrite lookup_nil in Ha. discriminate.
  - destruct j as [| j]; [lia |]. simpl in Hb.
    destruct i as [| i]; simpl in Ha.
    + injection Ha as <-. apply tuple_le_price.
      rewrite Forall_forall in Hx. apply Hx.
      eapply list_elem_of_lookup_2. exact Hb.
    + eapply (IH i j); eauto. lia.
Qed.

Lemma list_sort_ascending l : Spec.ascending (list_sort l).
Proof. apply StronglySorted_ascending, list_sort_StronglySorted. Qed.

Lemma complement_prices_lookup (l : list (Q * Z)) (i : nat) p q :
  l !! i = Some (p, q) -> complement_prices l !! i = Some ((1 - p)%Q, q).
Proof.
  intros Hl. unfold complement_prices. rewrite list_lookup_fmap, Hl. reflexivity.
Qed.

Lemma complement_prices_lookup_inv (l : list (Q * Z)) (i : nat) a :
  complement_prices l !! i = Some a ->
  exists p q, l !! i = Some (p, q) /\ a = ((1 - p)%Q, q).
Proof.
  unfold complement_prices. rewrite list_lookup_fmap.
  destruct (l !! i) as [[p q] |]; simpl; [| discriminate].
  intros [= <-]. eauto.
Qed.

Lemma complement_prices_descending l : Spec.ascending l -> Spec.descending (complement_prices l).
Proof.
  intros Hl i j a b Hij Ha Hb.
  apply complement_prices_lookup_inv in Ha as (p1 & q1 & Ha & ->).
  apply complement_prices_lookup_inv in Hb as (p2 & q2 & Hb & ->).
  specialize (Hl i j _ _ Hij Ha Hb). simpl in *. lra.
Qed.

(** ** Running the monad *)

Lemma bind_eq {S A B} (m : M S A) (k : A -> M S B) (s : S) :
  bind m k s = match m s with
               | (s', inr a) => k a s'
               | (s', inl e) => (s', inl e)
               end.
Proof. reflexivity. Qed.

Lemma bind_lift {S A B} (r : result A) (k : A -> M S B) (s : S) :
  bind (lift r) k s = match r with
                      | inr a => k a s
                      | inl e => (s, inl e)
                      end.
Proof. unfold bind, lift. now destruct r. Qed.

Lemma bind_modify {S B} (f : S -> S) (k : unit -> M S B) (s : S) :
  bind (modify f) k s = k tt (f s).
Proof. reflexivity. Qed.

Lemma bind_ret {S A B} (a : A) (k : A -> M S B) (s : S) :
  bind (ret a) k s = k a s.
Proof. reflexivity. Qed.

(** ** Responses *)

Lemma raise_for_status_failed {J} (resp : Response J) :
  failed resp -> raise_for_status resp = inl (HTTPError (status_code resp)).
Proof.
  unfold failed, raise_for_status. intros [Hlo Hhi].
  apply Z.leb_le in Hlo. apply Z.ltb_lt in Hhi. now rewrite Hlo, Hhi.
Qed.

Lemma raise_for_status_ok {J} (resp : Response J) :
  ~ failed resp -> raise_for_status resp = inr tt.
Proof.
  unfold failed, raise_for_status. intros Hn.
  destruct (400 <=? status_code resp) eqn:Hlo; [| reflexivity].
  destruct (status_code resp <? 600) eqn:Hhi; [| reflexivity].
  apply Z.leb_le in Hlo. apply Z.ltb_lt in Hhi. exfalso. apply Hn. lia.
Qed.

(** ** contract.py: the order book *)

Lemma getitem_Some {A} (d : gmap Z A) k v :
  d !! k = Some v -> Contract.getitem d k = inr v.
Proof. unfold Contract.getitem. now intros ->. Qed.

(** A refresh whose response is not an HTTP error stores both sides,
    sorted. *)
Lemma _update_order_book_ok (resp : Response Contract.orderbook_json) c :
  ~ failed resp ->
  exists c',
    Contract._update_order_book resp c = (c', inr resp) /\
    Contract._order_book c' !! 1
      = Some (list_sort (Contract.tuples (Contract.yesOrders (json resp)))) /\
    Contract._order_book c' !! 0
      = Some (list_sort (Contract.tuples (Contract.noOrders (json resp)))).
Proof.
  intros Hok. unfold Contract._update_order_book, bind, lift, modify, ret.
  rewrite (raise_for_status_ok resp Hok). cbn [Contract.set_order_book Contract._order_book].
  unfold Contract.sort_side at 1. cbn [Contract.set_order_book Contract._order_book].
  rewrite (getitem_Some _ 1 (Contract.tuples (Contract.yesOrders (json resp))))
    by (rewrite lookup_insert_ne by lia; apply lookup_insert_eq).
  cbn [Contract.set_order_book Contract._order_book].
  unfold Contract.sort_side. cbn [Contract.set_order_book Contract._order_book].
  rewrite (getitem_Some _ 0 (Contract.tuples (Contract.noOrders (json resp))))
    by (rewrite lookup_insert_ne by lia; apply lookup_insert_eq).
  eexists. split; [reflexivity |]. cbn [Contract.set_order_book Contract._order_book].
  split.
  - rewrite lookup_insert_ne by lia. apply lookup_insert_eq.
  - apply lookup_insert_eq.
Qed.

Lemma _update_order_book_failed (resp : Response Contract.orderbook_json) c :
  failed resp ->
  Contract._update_order_book resp c = (c, inl (HTTPError (status_code resp))).
Proof.
  intros Hf. unfold Contract._update_order_book, bind, lift.
  now rewrite (raise_for_status_failed resp Hf).
Qed.

(** The four views, read off the stored sides. *)
Lemma derived_views_core (c : Contract.t) (yes no : list (Q * Z)) :
  Contract._order_book c !! 1 = Some yes ->
  Contract._order_book c !! 0 = Some no ->
  Contract.yes_asks c = inr yes /\
  Contract.yes_bids c = inr no /\
  Contract.no_asks c = inr (complement_prices no) /\
  Contract.no_bids c = inr (complement_prices yes).
Proof.
  intros Hyes Hno.
  unfold Contract.yes_asks, Contract.yes_bids, Contract.no_asks, Contract.no_bids.
  rewrite (getitem_Some _ _ _ Hyes), (getitem_Some _ _ _ Hno). auto.
Qed.

(** C2, as amended: for every stored order book (yes side under key 1, no
    side under key 0), yes_asks is the yes side unchanged, yes_bids is the no
    side unchanged, no_asks is the NO side with each price p replaced by
    1 - p, and no_bids is the YES side with each price p replaced by 1 - p;
    quantities are unchanged. *)
Theorem derived_views_of_book (c : Contract.t) (yes no : list (Q * Z)) :
  Contract._order_book c !! 1 = Some yes ->
  Contract._order_book c !! 0 = Some no ->
  Contract.yes_asks c = inr yes /\
  Contract.yes_bids c = inr no /\
  Contract.no_asks c = inr (map (fun '(p, q) => ((1 - p)%Q, q)) no) /\
  Contract.no_bids c = inr (map (fun '(p, q) => ((1 - p)%Q, q)) yes).
Proof. exact (derived_views_core c yes no). Qed.

Lemma derived_views_of_book_witness :
  Contract.no_asks Examples.flat = inr [((1 - (3#10))%Q, 5); ((1 - (35#100))%Q, 1)].
Proof.
  apply (derived_views_of_book Examples.flat
           [((4#10)%Q, 10); ((5#10)%Q, 2)] [((3#10)%Q, 5); ((35#100)%Q, 1)]);
    reflexivity.
Defined.

(** C2 as the specification words it fails: on the sample book the no-asks
    are not the complemented yes side (and the no-bids not the complemented
    no side). *)
Lemma derived_views_counterexample :
  Contract._order_book Examples.flat !! 1 = Some [((4#10)%Q, 10); ((5#10)%Q, 2)] /\
  Contract._order_book Examples.flat !! 0 = Some [((3#10)%Q, 5); ((35#100)%Q, 1)] /\
  ~ Spec.derived_views Examples.flat
      [((4#10)%Q, 10); ((5#10)%Q, 2)] [((3#10)%Q, 5); ((35#100)%Q, 1)].
Proof.
  split; [reflexivity |]. split; [reflexivity |].
  intros (_ & _ & (v & Hv & Hsame) & _).
  injection Hv as <-. inversion Hsame as [| x y l l' [Hp Hq] _]; subst.
  simpl in Hq. discriminate.
Qed.

(** C4: for every stored yes side L, the no_bids view is the list of
    (1 - p, q) for (p, q) in L, in the order of L: it has the length of L
    and its element i comes from element i of L. *)
Theorem no_bids_of_yes_side (c : Contract.t) (L : list (Q * Z)) :
  Contract._order_book c !! 1 = Some L ->
  exists v,
    Contract.no_bids c = inr v /\
    v = map (fun '(p, q) => ((1 - p)%Q, q)) L /\
    length v = length L /\
    forall (i : nat) p q, L !! i = Some (p, q) -> v !! i = Some ((1 - p)%Q, q).
Proof.
  intros HL. exists (complement_prices L). split; [| split; [| split]].
  - unfold Contract.no_bids. now rewrite (getitem_Some _ _ _ HL).
  - reflexivity.
  - unfold complement_prices. apply length_map.
  - intros i p q Hi. now apply complement_prices_lookup.
Qed.

Lemma no_bids_of_yes_side_witness :
  exists v,
    Contract.no_bids Examples.flat = inr v /\
    v = [((1 - (4#10))%Q, 10); ((1 - (5#10))%Q, 2)] /\
    length v = 2%nat /\
    forall (i : nat) p q,
      [((4#10)%Q, 10); ((5#10)%Q, 2)] !! i = Some (p, q) -> v !! i = Some ((1 - p)%Q, q).
Proof.
  apply (no_bids_of_yes_side Examples.flat [((4#10)%Q, 10); ((5#10)%Q, 2)]).
  reflexivity.
Defined.

(** C5, as amended: after every order-book update whose response is not an
    HTTP error, whatever the order of the payload, the stored yes and no
    sides are permutations of the payload's orders sorted ascending by
    price; yes_asks is the yes side, ascending by price (lowest ask first),
    and no_bids, whose prices are the complements 1 - p of the yes side, is
    DESCENDING by price (highest bid first). *)
Theorem order_book_sorted_after_update
    (resp : Response Contract.orderbook_json) (c : Contract.t) :
  ~ failed resp ->
  exists c' yes no,
    Contract._update_order_book resp c = (c', inr resp) /\
    Contract._order_book c' !! 1 = Some yes /\
    Permutation (Contract.tuples (Contract.yesOrders (json resp))) yes /\
    Spec.ascending yes /\
    Contract._order_book c' !! 0 = Some no /\
    Permutation (Contract.tuples (Contract.noOrders (json resp))) no /\
    Spec.ascending no /\
    Contract.yes_asks c' = inr yes /\
    exists bids, Contract.no_bids c' = inr bids /\ Spec.descending bids.
Proof.
  intros Hok. destruct (_update_order_book_ok resp c Hok) as (c' & Hrun & Hyes & Hno).
  exists c', (list_sort (Contract.tuples (Contract.yesOrders (json resp)))),
         (list_sort (Contract.tuples (Contract.noOrders (json resp)))).
  destruct (derived_views_core c' _ _ Hyes Hno) as (Hya & _ & _ & Hnb).
  repeat split; auto using list_sort_Permutation, list_sort_ascending.
  eexists. split; [exact Hnb |].
  apply complement_prices_descending, list_sort_ascending.
Qed.

Lemma order_book_sorted_after_update_witness :
  exists c' yes no,
    Contract._update_order_book Examples.book_payload Examples.flat
      = (c', inr Examples.book_payload) /\
    Contract._order_book c' !! 1 = Some yes /\
    Permutation [((5#10)%Q, 2); ((4#10)%Q, 10)] yes /\
    Spec.ascending yes /\
    Contract._order_book c' !! 0 = Some no /\
    Permutation [((35#100)%Q, 1); ((3#10)%Q, 5)] no /\
    Spec.ascending no /\
    Contract.yes_asks c' = inr yes /\
    exists bids, Contract.no_bids c' = inr bids /\ Spec.descending bids.
Proof.
  apply (order_book_sorted_after_update Examples.book_payload Examples.flat).
  unfold failed. simpl. lia.
Defined.

(** C5 as the specification words it fails: after the sample update the
    no_bids view is (0.60, 10), (0.50, 2), which is not ascending by price. *)
Lemma sorted_views_counterexample :
  ~ Spec.sorted_views
      (fst (Contract._update_order_book Examples.book_payload Examples.flat)).
Proof.
  intros (_ & _ & _ & (v & Hv & Hasc)).
  assert (Hbids : Contract.no_bids
            (fst (Contract._update_order_book Examples.book_payload Examples.flat))
          = inr [((1 - (4#10))%Q, 10); ((1 - (5#10))%Q, 2)]) by (vm_compute; reflexivity).
  rewrite Hbids in Hv. injection Hv as <-.
  specialize (Hasc 0%nat 1%nat _ _ ltac:(lia) eq_refl eq_refl).
  simpl in Hasc. revert Hasc. unfold Qle. simpl. lia.
Qed.

(** ** contract.py: trading *)


(** A trade type that is a [str] is in none of the tuples of integer codes:
    only the price and quantity checks are left. *)
Lemma _post_order_data_str (t : string) price quantity c :
  Contract._post_order_data (PyStr t) price quantity c =
  if negb ((1 <=? py_int (100 * price)) && (py_int (100 * price) <=? 99))
  then inl ValueError_price
  else match quantity with
       | PyInt n =>
           if n <=? 0 then inl ValueError_quantity
           else inr (Contract.mkTrade (py_int (100 * price)) n
                       (Contract.contract_id c) (PyStr t))
       | _ => inl TypeError_quantity
       end.
Proof.
  unfold Contract._post_order_data.
  destruct (negb _); [reflexivity |].
  destruct quantity as [n | | |]; try reflexivity.
  destruct (n <=? 0); [reflexivity |].
  destruct (Contract.my_prediction c) as [p |]; cbn;
    rewrite ?andb_false_r; cbn; reflexivity.
Qed.

(** The public methods pass the codes as strings, so they post whenever
    the price and the quantity are in range, whatever the position. *)
Lemma trade_method_posts {J} (post : Contract.trade_data -> Response J)
    (a : Spec.action) (s : Spec.side) price n c :
  1 <= py_int (100 * price) <= 99 -> 0 < n ->
  exists t,
    let data := Contract.mkTrade (py_int (100 * price)) n (Contract.contract_id c) (PyStr t) in
    Spec.trade_method post a s price (PyInt n) c =
    match raise_for_status (post data) with
    | inl e => inl e
    | inr _ => inr (post data)
    end.
Proof.
  intros [Hlo Hhi] Hn.
  assert (Hdata : forall t, Contract._post_order_data (PyStr t) price (PyInt n) c
            = inr (Contract.mkTrade (py_int (100 * price)) n (Contract.contract_id c) (PyStr t))).
  { intros t. rewrite _post_order_data_str.
    apply Z.leb_le in Hlo. apply Z.leb_le in Hhi. rewrite Hlo, Hhi. cbn.
    destruct (n <=? 0) eqn:E; [apply Z.leb_le in E; lia | reflexivity]. }
  destruct a, s; eexists; cbn;
    unfold Contract.buy_no, Contract.buy_yes, Contract.sell_no, Contract.sell_yes,
      Contract._post_order; rewrite Hdata; reflexivity.
Qed.

(** C1, the code at failing inputs: in a contract where the user holds 800
    Yes shares bought for $400, buy_no(0.50, 10), sell_yes(0.50, 801) and
    buy_yes(0.50, 1000) all reach the POST and return its response, while
    the five checks reject them with the opposite-side error, the
    sell-quantity error and the investment-cap error. *)
Theorem trade_methods_skip_position_checks :
  Contract.buy_no Examples.post_ok (1#2) (PyInt 10) Examples.held_yes
    = inr (mkResponse 200 tt) /\
  Spec.validate Spec.Buy Spec.No (1#2) (PyInt 10) Examples.held_yes
    = inl ValueError_own_yes /\
  Contract.sell_yes Examples.post_ok (1#2) (PyInt 801) Examples.held_yes
    = inr (mkResponse 200 tt) /\
  Spec.validate Spec.Sell Spec.Yes (1#2) (PyInt 801) Examples.held_yes
    = inl ValueError_sell /\
  Contract.buy_yes Examples.post_ok (1#2) (PyInt 1000) Examples.held_yes
    = inr (mkResponse 200 tt) /\
  Spec.validate Spec.Buy Spec.Yes (1#2) (PyInt 1000) Examples.held_yes
    = inl ValueError_cap.
Proof. repeat split; vm_compute; reflexivity. Qed.

(** ** contract.py: owned shares *)

Section shares.
Context `{Runtime}.

(** The record's date is one [strptime] accepts in the chosen format. *)
Definition parses (share : Contract.share_json) : Prop :=
  is_Some (strptime (Contract.dateExecuted share) (Contract.str_format share)).

(** The loop adds every record to the two totals and touches nothing
    else. *)
Lemma shares_loop_ok shares :
  Forall parses shares ->
  forall c, exists c' details,
    Contract.shares_loop shares c = (c', inr details) /\
    Contract._shares_owned c' = Contract._shares_owned c + Spec.total_shares shares /\
    (Contract._investment c' == Contract._investment c + Spec.total_cost shares)%Q /\
    Contract._my_prediction c' = Contract._my_prediction c /\
    Contract._contract_name c' = Contract._contract_name c.
Proof.
  induction 1 as [| share rest [date Hdate] _ IH]; intros c.
  - exists c, []. cbn [Contract.shares_loop Spec.total_shares Spec.total_cost foldr].
    repeat split; [lia | ring].
  - cbn [Contract.shares_loop]. unfold py_strptime. rewrite Hdate.
    rewrite bind_lift, !bind_modify, bind_eq.
    match goal with
    | |- context [Contract.shares_loop rest ?c1] =>
        destruct (IH c1) as (c' & details & Hrun & Hso & Hinv & Hpred & Hname)
    end.
    exists c', (Contract.mkShareDetail share date :: details).
    rewrite Hrun.
    change (Spec.total_shares (share :: rest))
      with (Contract.sharesOwned share + Spec.total_shares rest).
    change (Spec.total_cost (share :: rest))
      with (Contract.pricePerShare share * inject_Z (Contract.sharesOwned share)
            + Spec.total_cost rest)%Q.
    cbn [Contract.set_investment Contract.set_shares_owned Contract._investment
         Contract._shares_owned Contract._my_prediction Contract._contract_name] in *.
    repeat split; [lia | | assumption | assumption].
    rewrite Hinv. ring.
Qed.

(** The loop returns only if every date was accepted. *)
Lemma shares_loop_returns shares :
  forall c c' details,
    Contract.shares_loop shares c = (c', inr details) -> Forall parses shares.
Proof.
  induction shares as [| share rest IH]; intros c c' details Hrun.
  - constructor.
  - cbn [Contract.shares_loop] in Hrun. unfold py_strptime in Hrun.
    rewrite bind_lift in Hrun.
    destruct (strptime (Contract.dateExecuted share) (Contract.str_format share))
      as [date |] eqn:Hdate; [| discriminate].
    rewrite !bind_modify, bind_eq in Hrun.
    match type of Hrun with
    | context [Contract.shares_loop rest ?c1] =>
        destruct (Contract.shares_loop rest c1) as [c2 [e | ds]] eqn:Hrest
    end; [discriminate |].
    constructor; [exists date; exact Hdate | eapply IH; exact Hrest].
Qed.

(** What [_update_shares] leaves when the response is good and the dates
    are accepted. *)
Lemma _update_shares_ok (resp : Response Contract.shares_json) c :
  ~ failed resp ->
  Forall parses (Contract.shares (json resp)) ->
  exists c',
    Contract._update_shares resp c = (c', inr resp) /\
    Contract.my_prediction c'
      = match Contract.shares (json resp) with
        | [] => None
        | first :: _ => Some (Contract.predictionType first)
        end /\
    Contract.shares_owned c' = Spec.total_shares (Contract.shares (json resp)) /\
    (Contract.investment c' == Spec.total_cost (Contract.shares (json resp)))%Q.
Proof.
  intros Hok Hdates. unfold Contract._update_shares.
  rewrite bind_lift, (raise_for_status_ok resp Hok), !bind_modify, bind_eq.
  match goal with
  | |- context [Contract.shares_loop _ ?c1] =>
      destruct (shares_loop_ok _ Hdates c1) as (c' & details & Hrun & Hso & Hinv & Hpred & _)
  end.
  rewrite Hrun, bind_modify. unfold ret. cbn in *.
  eexists. split; [reflexivity |]. cbn.
  unfold Contract.my_prediction, Contract.shares_owned, Contract.investment. cbn.
  repeat split; [exact Hpred | lia | lra].
Qed.

Lemma _update_shares_returns (resp : Response Contract.shares_json) c c' r :
  Contract._update_shares resp c = (c', inr r) ->
  ~ failed resp /\ Forall parses (Contract.shares (json resp)).
Proof.
  unfold Contract._update_shares. intros Hrun.
  rewrite bind_lift in Hrun.
  destruct (raise_for_status resp) as [e | []] eqn:Hstatus; [discriminate |].
  split.
  - intros Hf. rewrite (raise_for_status_failed resp Hf) in Hstatus. discriminate.
  - rewrite !bind_modify, bind_eq in Hrun.
    match type of Hrun with
    | context [Contract.shares_loop ?l ?c1] =>
        destruct (Contract.shares_loop l c1) as [c2 [e | ds]] eqn:Hloop
    end; [discriminate |].
    eapply shares_loop_returns. exact Hloop.
Qed.

(** C9: after every shares update that returns, my_prediction is None
    exactly when the fetched share list is empty and is otherwise the
    predictionType of the first record, shares_owned is the sum of
    sharesOwned over all records, and investment is the sum of
    pricePerShare * sharesOwned over all records. *)
Theorem shares_summary_after_update
    (resp : Response Contract.shares_json) (c c' : Contract.t) r :
  Contract._update_shares resp c = (c', inr r) ->
  (Contract.my_prediction c' = None <-> Contract.shares (json resp) = []) /\
  (forall first rest,
      Contract.shares (json resp) = first :: rest ->
      Contract.my_prediction c' = Some (Contract.predictionType first)) /\
  Contract.shares_owned c' = Spec.total_shares (Contract.shares (json resp)) /\
  (Contract.investment c' == Spec.total_cost (Contract.shares (json resp)))%Q.
Proof.
  intros Hrun. destruct (_update_shares_returns _ _ _ _ Hrun) as [Hok Hdates].
  destruct (_update_shares_ok resp c Hok Hdates) as (c1 & Hrun1 & Hpred & Hso & Hinv).
  rewrite Hrun in Hrun1. injection Hrun1 as <- _.
  repeat split; try assumption.
  - rewrite Hpred. destruct (Contract.shares (json resp)); [reflexivity | discriminate].
  - rewrite Hpred. intros ->. reflexivity.
  - intros first rest Hshares. rewrite Hpred, Hshares. reflexivity.
Qed.

(** C8: mean_price_per_share divides without a guard.  Whenever
    shares_owned is zero it raises the division error instead of returning a
    value, which is the state an update with an empty share list leaves
    (shares_owned 0, investment 0); when shares_owned is positive it is
    investment / shares_owned. *)
Theorem mean_price_per_share_division (c : Contract.t) :
  (Contract.shares_owned c = 0 ->
   Contract.mean_price_per_share c = inl ZeroDivisionError) /\
  (0 < Contract.shares_owned c ->
   Contract.mean_price_per_share c
     = inr (truediv (Contract.investment c) (Contract.shares_owned c))) /\
  (forall resp : Response Contract.shares_json,
      ~ failed resp -> Contract.shares (json resp) = [] ->
      exists c',
        Contract._update_shares resp c = (c', inr resp) /\
        Contract.shares_owned c' = 0 /\
        Contract.investment c' = 0%Q /\
        Contract.mean_price_per_share c' = inl ZeroDivisionError).
Proof.
  unfold Contract.mean_price_per_share, py_truediv. repeat split.
  - intros ->. reflexivity.
  - intros Hpos. destruct (Contract.shares_owned c =? 0) eqn:E; [| reflexivity].
    apply Z.eqb_eq in E. lia.
  - intros resp Hok Hempty. unfold Contract._update_shares.
    rewrite bind_lift, (raise_for_status_ok resp Hok), Hempty. cbn. eexists. split; [reflexivity |]. cbn. auto.
Qed.

End shares.

Lemma shares_summary_after_update_witness :
  let R := fixed_zone_runtime 0 in
  let c' := fst (Contract._update_shares Examples.shares_payload Examples.flat) in
  (Contract.my_prediction c' = None <-> Contract.shares (json Examples.shares_payload) = []) /\
  (forall first rest,
      Contract.shares (json Examples.shares_payload) = first :: rest ->
      Contract.my_prediction c' = Some (Contract.predictionType first)) /\
  Contract.shares_owned c' = Spec.total_shares (Contract.shares (json Examples.shares_payload)) /\
  (Contract.investment c' == Spec.total_cost (Contract.shares (json Examples.shares_payload)))%Q.
Proof.
  intros R c'.
  apply (shares_summary_after_update Examples.shares_payload Examples.flat c'
           Examples.shares_payload).
  vm_compute. reflexivity.
Defined.

(** On the sample payload: 10 shares at 0.45 and 30 at 0.55. *)
Example shares_summary_sample :
  let R := fixed_zone_runtime 0 in
  let c' := fst (Contract._update_shares Examples.shares_payload Examples.flat) in
  Contract.my_prediction c' = Some 1 /\
  Contract.shares_owned c' = 40 /\
  (Contract.investment c' == 21)%Q.
Proof. vm_compute. repeat split. Qed.

Lemma mean_price_per_share_division_witness :
  let R := fixed_zone_runtime 0 in
  Contract.mean_price_per_share Examples.flat = inl ZeroDivisionError /\
  Contract.mean_price_per_share Examples.held_yes = inr (truediv 400 800) /\
  exists c',
    Contract._update_shares Examples.no_shares_payload Examples.held_yes
      = (c', inr Examples.no_shares_payload) /\
    Contract.shares_owned c' = 0 /\
    Contract.investment c' = 0%Q /\
    Contract.mean_price_per_share c' = inl ZeroDivisionError.
Proof.
  intros R. split; [| split].
  - apply (proj1 (mean_price_per_share_division Examples.flat)). reflexivity.
  - apply (proj1 (proj2 (mean_price_per_share_division Examples.held_yes))). reflexivity.
  - apply (proj2 (proj2 (mean_price_per_share_division Examples.held_yes))
             Examples.no_shares_payload).
    + unfold failed. simpl. lia.
    + reflexivity.
Defined.

(** ** utils.py: concurrent_get *)

Section concurrent_get.
Context {R : Type} (get : nat -> string -> result R).

Local Abbreviation future := (@utils.future R).

(** Future [i] is done with the outcome of the request for [urls !! i] that
    finished as the [k]-th one of the schedule. *)
Definition filled_by (urls : list string) (schedule : list nat) (i : nat)
    (outcome : result R) : Prop :=
  exists (k : nat) url,
    schedule !! k = Some i /\ urls !! i = Some url /\ outcome = get k url.

Lemma length_submit_all (urls : list string) :
  length (utils.submit_all (R := R) urls) = length urls.
Proof. unfold utils.submit_all. apply length_map. Qed.

Lemma submit_all_pending (urls : list string) (i : nat) (f : future) :
  utils.submit_all urls !! i = Some f -> f = None.
Proof.
  unfold utils.submit_all. rewrite list_lookup_fmap.
  destruct (urls !! i); simpl; congruence.
Qed.

Lemma length_complete urls k i (fs : list future) :
  length (utils.complete get urls k i fs) = length fs.
Proof.
  unfold utils.complete. destruct (urls !! i) as [url |]; [| reflexivity].
  destruct (fs !! i) as [[o |] |]; try reflexivity. apply length_insert.
Qed.

(** A completion changes future [i] only, and only if it was pending. *)
Lemma complete_lookup urls k i (fs : list future) j o :
  utils.complete get urls k i fs !! j = Some (Some o) ->
  fs !! j = Some (Some o) \/
  (j = i /\ fs !! i = Some None /\ exists url, urls !! i = Some url /\ o = get k url).
Proof.
  unfold utils.complete. destruct (urls !! i) as [url |] eqn:Hurl; [| auto].
  destruct (fs !! i) as [[o' |] |] eqn:Hfi; auto.
  destruct (decide (j = i)) as [-> | Hne].
  - rewrite list_lookup_insert_eq by (eapply lookup_lt_Some; exact Hfi).
    intros [= <-]. right. eauto.
  - rewrite list_lookup_insert_ne by congruence. auto.
Qed.

Lemma complete_keeps urls k i (fs : list future) j o :
  fs !! j = Some (Some o) -> utils.complete get urls k i fs !! j = Some (Some o).
Proof.
  intros Hj. unfold utils.complete. destruct (urls !! i) as [url |]; [| exact Hj].
  destruct (fs !! i) as [[o' |] |] eqn:Hfi; try exact Hj.
  rewrite list_lookup_insert_ne; [exact Hj | congruence].
Qed.

Lemma complete_fills urls k i (fs : list future) :
  length fs = length urls -> (i < length urls)%nat ->
  is_Some (utils.complete get urls k i fs !! i) /\
  forall f, utils.complete get urls k i fs !! i = Some f -> f <> None.
Proof.
  intros Hlen Hi. unfold utils.complete.
  destruct (urls !! i) as [url |] eqn:Hurl;
    [| apply lookup_ge_None in Hurl; lia].
  destruct (fs !! i) as [[o |] |] eqn:Hf.
  - rewrite Hf. split; [eauto | intros f Hf' Hn; subst f; discriminate Hf'].
  - assert (Hlt : (i < length fs)%nat) by (eapply lookup_lt_Some; exact Hf).
    split; [rewrite list_lookup_insert_eq by exact Hlt; eauto |].
    intros f. rewrite list_lookup_insert_eq by exact Hlt.
    intros Hf' Hn; subst f; discriminate Hf'.
  - apply lookup_ge_None in Hf. unfold utils.future in *. lia.
Qed.

(** Every done future of the pool holds the outcome of its own URL. *)
Lemma run_pool_filled urls schedule :
  forall (k : nat) (fs : list future) i o,
    utils.run_pool get urls k schedule fs !! i = Some (Some o) ->
    fs !! i = Some (Some o) \/
    exists (j : nat) url,
      schedule !! j = Some i /\ urls !! i = Some url /\ o = get (k + j)%nat url.
Proof.
  induction schedule as [| t rest IH]; intros k fs i o Hrun; cbn in Hrun.
  - auto.
  - apply IH in Hrun as [Hcomp | (j & url & Hj & Hurl & ->)].
    + apply complete_lookup in Hcomp as [Hfs | (-> & _ & url & Hurl & ->)]; [auto |].
      right. exists 0%nat, url. rewrite Nat.add_0_r. auto.
    + right. exists (S j), url. rewrite Nat.add_succ_r. auto.
Qed.

Lemma length_run_pool urls schedule :
  forall (k : nat) (fs : list future),
    length (utils.run_pool get urls k schedule fs) = length fs.
Proof.
  induction schedule as [| t rest IH]; intros k fs; cbn; [reflexivity |].
  rewrite IH. apply length_complete.
Qed.

Lemma run_pool_keeps urls schedule :
  forall (k : nat) (fs : list future) i o,
    fs !! i = Some (Some o) ->
    utils.run_pool get urls k schedule fs !! i = Some (Some o).
Proof.
  induction schedule as [| t rest IH]; intros k fs i o Hi; cbn; [exact Hi |].
  apply IH, complete_keeps, Hi.
Qed.

(** A task that occurs in the schedule is done at the end. *)
Lemma run_pool_done urls schedule :
  forall (k : nat) (fs : list future) i,
    length fs = length urls -> (i < length urls)%nat -> i ∈ schedule ->
    exists o, utils.run_pool get urls k schedule fs !! i = Some (Some o).
Proof.
  induction schedule as [| t rest IH]; intros k fs i Hlen Hi Hin.
  - inversion Hin.
  - cbn. apply elem_of_cons in Hin as [-> | Hin].
    + destruct (complete_fills urls k t fs Hlen Hi) as [[f Hf] Hdone].
      destruct f as [o |]; [| exfalso; eapply Hdone; eauto].
      exists o. apply run_pool_keeps, Hf.
    + apply IH; [rewrite length_complete; exact Hlen | exact Hi | exact Hin].
Qed.

(** The list comprehension returns the values of the futures, position by
    position, and only if all of them are done without an exception. *)
Lemma results_inr (fs : list future) :
  forall l, utils.results fs = inr l ->
    length l = length fs /\
    forall (i : nat) f, fs !! i = Some f -> exists r, l !! i = Some r /\ f = Some (inr r).
Proof.
  induction fs as [| f fs IH]; intros l Hres; cbn in Hres.
  - injection Hres as <-. split; [reflexivity |]. intros i f Hi.
    rewrite lookup_nil in Hi. discriminate.
  - destruct f as [[e | r] |]; cbn in Hres; try discriminate.
    destruct (utils.results fs) as [e | rs]; [discriminate |].
    injection Hres as <-. destruct (IH rs eq_refl) as [Hlen Hpos].
    split; [cbn; lia |]. intros [| i] f Hi; cbn in Hi.
    + injection Hi as <-. exists r. auto.
    + apply Hpos, Hi.
Qed.

Lemma results_all_done (fs : list future) :
  (forall (i : nat) f, fs !! i = Some f -> exists r, f = Some (inr r)) ->
  exists l, utils.results fs = inr l.
Proof.
  induction fs as [| f fs IH]; intros Hall; cbn.
  - eauto.
  - destruct (Hall 0%nat f eq_refl) as [r ->]. cbn.
    destruct IH as [l ->]; [intros i g Hi; apply (Hall (S i) g Hi) | eauto].
Qed.

(** C7: for every list of N URLs and every completion order, a list that
    concurrent_get returns has length N and its element i is the response
    that the request for URL i received; and it does return a list when
    every task completes and every request is answered. *)
Theorem concurrent_get_in_order (urls : list string) (schedule : list nat) :
  (forall l, utils.concurrent_get get urls schedule = inr l ->
     length l = length urls /\
     forall (i : nat) url, urls !! i = Some url ->
       exists r (k : nat),
         l !! i = Some r /\ schedule !! k = Some i /\ get k url = inr r) /\
  ((forall i : nat, (i < length urls)%nat -> i ∈ schedule) ->
   (forall (k : nat) url, exists r, get k url = inr r) ->
   exists l, utils.concurrent_get get urls schedule = inr l).
Proof.
  unfold utils.concurrent_get. split.
  - intros l Hres. apply results_inr in Hres as [Hlen Hpos].
    rewrite length_run_pool, length_submit_all in Hlen. split; [exact Hlen |].
    intros i url Hurl.
    destruct (lookup_lt_is_Some_2
                (utils.run_pool get urls 0 schedule (utils.submit_all urls)) i)
      as [f Hf].
    { rewrite length_run_pool, length_submit_all. eapply lookup_lt_Some, Hurl. }
    destruct (Hpos i f Hf) as (r & Hr & ->).
    apply run_pool_filled in Hf as [Hpending | (j & url' & Hj & Hurl' & Hget)].
    + apply submit_all_pending in Hpending. discriminate.
    + exists r, j. rewrite Hurl in Hurl'. injection Hurl' as <-. auto.
  - intros Hall Hanswered. apply results_all_done. intros i f Hf.
    assert (Hi : (i < length urls)%nat).
    { apply lookup_lt_Some in Hf. now rewrite length_run_pool, length_submit_all in Hf. }
    destruct (run_pool_done urls schedule 0 (utils.submit_all urls) i
                (length_submit_all urls) Hi (Hall i Hi)) as [o Ho].
    assert (Hfo : f = Some o) by (unfold utils.future, result in *; congruence).
    subst f.
    apply run_pool_filled in Ho as [Hpending | (j & url & _ & _ & ->)].
    + apply submit_all_pending in Hpending. discriminate.
    + destruct (Hanswered (0 + j)%nat url) as [r ->]. eauto.
Qed.

End concurrent_get.

(** Three URLs whose requests finish in the order 2, 0, 1; each response
    records its URL and when it finished. *)
Lemma concurrent_get_in_order_witness :
  let get := fun (k : nat) (url : string) => inr (url, k) : result (string * nat) in
  utils.concurrent_get get ["a"; "b"; "c"] [2; 0; 1]%nat
    = inr [("a", 1%nat); ("b", 2%nat); ("c", 0%nat)] /\
  (length [("a", 1%nat); ("b", 2%nat); ("c", 0%nat)] = 3%nat /\
   forall (i : nat) url, ["a"; "b"; "c"] !! i = Some url ->
     exists r (k : nat),
       [("a", 1%nat); ("b", 2%nat); ("c", 0%nat)] !! i = Some r /\
       [2; 0; 1]%nat !! k = Some i /\ get k url = inr r) /\
  exists l, utils.concurrent_get get ["a"; "b"; "c"] [2; 0; 1]%nat = inr l.
Proof.
  intros get. split; [reflexivity |]. split.
  - apply (proj1 (concurrent_get_in_order get ["a"; "b"; "c"] [2; 0; 1]%nat)).
    reflexivity.
  - apply (proj2 (concurrent_get_in_order get ["a"; "b"; "c"] [2; 0; 1]%nat)).
    + intros i Hi. cbn in Hi.
      destruct i as [| [| [| i]]]; [| | | lia]; repeat constructor.
    + intros k url. eexists. reflexivity.
Defined.

(** ** market.py *)

Lemma bind_setattr {B} (name : string) (v : Market.value)
    (k : unit -> M Market.t B) (m : Market.t) :
  bind (Market.setattr name v) k m = k tt (<[name := v]> m).
Proof. reflexivity. Qed.

Lemma bind_raise {S A B} (e : exn) (k : A -> M S B) (s : S) :
  bind (raise e) k s = (s, inl e).
Proof. reflexivity. Qed.

(** Runs [_update_info] to each of its exits. *)
Ltac run_update_info :=
  unfold Market._update_info, bind, lift, Market.setattr, modify, ret, raise;
  cbn beta iota;
  repeat (match goal with
          | |- context [match raise_for_status ?r with _ => _ end] =>
              destruct (raise_for_status r) as [? | []] eqn:?
          | |- context [match py_strptime ?d ?f with _ => _ end] =>
              destruct (py_strptime d f) eqn:?
          | |- context [match Market.astimezone_eastern_utc ?d with _ => _ end] =>
              destruct (Market.astimezone_eastern_utc d) eqn:?
          | |- context [String.eqb ?a ?b] =>
              destruct (String.eqb a b) eqn:?
          end; cbn beta iota);
  cbn [fst snd].

Section market.
Context `{Runtime}.

Lemma _update_info_failed (resp : Response Market.info_json) (m : Market.t) :
  failed resp ->
  Market._update_info resp m = (m, inl (HTTPError (status_code resp))).
Proof.
  intros Hf. unfold Market._update_info.
  now rewrite bind_lift, (raise_for_status_failed resp Hf).
Qed.

Lemma _update_contracts_failed (resp : Response (list Market.contract_json)) m :
  failed resp ->
  Market._update_contracts resp m = (m, inl (HTTPError (status_code resp))).
Proof.
  intros Hf. unfold Market._update_contracts.
  now rewrite bind_lift, (raise_for_status_failed resp Hf).
Qed.

Lemma _update_contracts_ok (resp : Response (list Market.contract_json)) m :
  ~ failed resp ->
  Market._update_contracts resp m
  = (<["_contract_ids" := Market.VList (map Market.contractId (json resp))]> m,
     inr resp).
Proof.
  intros Hok. unfold Market._update_contracts.
  now rewrite bind_lift, (raise_for_status_ok resp Hok).
Qed.

(** However it ends, [_update_info] writes the attributes of its own group
    only. *)
Lemma _update_info_frame (resp : Response Market.info_json) (m : Market.t) name :
  name ∉ Market.info_attributes ->
  fst (Market._update_info resp m) !! name = m !! name.
Proof.
  unfold Market.info_attributes. intros Hname.
  repeat (apply not_elem_of_cons in Hname as [? Hname]).
  run_update_info; rewrite ?lookup_insert_ne by (intros Heq; subst name; congruence); reflexivity.
Qed.

(** Market.update_all is its two sub-updates in sequence. *)
Lemma update_all_eq
    (responses : Response Market.info_json * Response (list Market.contract_json)) m :
  Market.update_all responses m =
  match Market._update_info (fst responses) m with
  | (m1, inl e) => (m1, inl e)
  | (m1, inr _) =>
      match Market._update_contracts (snd responses) m1 with
      | (m2, inl e) => (m2, inl e)
      | (m2, inr _) => (m2, inr responses)
      end
  end.
Proof.
  unfold Market.update_all. rewrite bind_eq.
  destruct (Market._update_info (fst responses) m) as [m1 [e | r]]; [reflexivity |].
  rewrite bind_eq.
  destruct (Market._update_contracts (snd responses) m1) as [m2 [e | r']]; reflexivity.
Qed.

(** C3, as amended: refresh-all runs its two sub-updates one after the
    other, and each checks its own response before it writes.  When the
    market-info response is an HTTP failure, nothing is mutated.  When the
    info update succeeds and the contracts response is an HTTP failure, the
    contract-id list is unchanged, but the metadata attributes keep what the
    info update wrote.  When both succeed, both groups are updated. *)
Theorem update_all_per_response
    (r0 : Response Market.info_json) (r1 : Response (list Market.contract_json))
    (m : Market.t) :
  (failed r0 ->
   Market.update_all (r0, r1) m = (m, inl (HTTPError (status_code r0)))) /\
  (forall m1 x,
      Market._update_info r0 m = (m1, inr x) -> failed r1 ->
      Market.update_all (r0, r1) m = (m1, inl (HTTPError (status_code r1))) /\
      Market.contract_ids m1 = Market.contract_ids m) /\
  (forall m1 x,
      Market._update_info r0 m = (m1, inr x) -> ~ failed r1 ->
      Market.update_all (r0, r1) m
      = (<["_contract_ids" := Market.VList (map Market.contractId (json r1))]> m1,
         inr (r0, r1))).
Proof.
  split; [| split].
  - intros Hf. rewrite update_all_eq. cbn [fst snd].
    now rewrite (_update_info_failed r0 m Hf).
  - intros m1 x Hinfo Hf. split.
    + rewrite update_all_eq. cbn [fst snd]. rewrite Hinfo.
      now rewrite (_update_contracts_failed r1 m1 Hf).
    + unfold Market.contract_ids.
      replace m1 with (fst (Market._update_info r0 m)) by now rewrite Hinfo.
      apply _update_info_frame.
      unfold Market.info_attributes. intros Hin.
      repeat (apply elem_of_cons in Hin as [Hin | Hin]; [discriminate |]).
      inversion Hin.
  - intros m1 x Hinfo Hok. rewrite update_all_eq. cbn [fst snd]. rewrite Hinfo.
    now rewrite (_update_contracts_ok r1 m1 Hok).
Qed.

(** *** The end date *)

(** "N/A" gives an end date of None. *)
Lemma end_date_not_available (resp : Response Market.info_json) (m : Market.t) :
  ~ failed resp -> Market.dateEndString (json resp) = "N/A" ->
  Market.end_date (fst (Market._update_info resp m)) = Some Market.VNone.
Proof.
  intros Hok Hna. pose proof (raise_for_status_ok resp Hok) as Hstatus.
  unfold Market.end_date. run_update_info; try congruence;
    try (rewrite Hna in *; discriminate);
    repeat (rewrite lookup_insert_ne by discriminate); apply lookup_insert_eq.
Qed.

(** Any zone other than "ET" ends the update with an exception, and no end
    date is stored. *)
Lemma end_date_other_zone (resp : Response Market.info_json) (m : Market.t) :
  ~ failed resp ->
  Market.dateEndString (json resp) <> "N/A" ->
  strip " ()" (str_from 19 (Market.dateEndString (json resp))) <> "ET" ->
  (snd (Market._update_info resp m) = inl ValueError_strptime \/
   snd (Market._update_info resp m) = inl NotImplementedError_timezone) /\
  Market.end_date (fst (Market._update_info resp m)) = Market.end_date m.
Proof.
  intros Hok Hna Hzone. pose proof (raise_for_status_ok resp Hok) as Hstatus.
  unfold Market.end_date.
  run_update_info; try congruence;
    repeat match goal with
           | E : String.eqb _ _ = true |- _ => apply String.eqb_eq in E
           end; try congruence.
  all: split;
    [ first [ right; reflexivity
            | left; unfold py_strptime in *; destruct (strptime _ _); congruence ]
    | repeat (rewrite lookup_insert_ne by discriminate); reflexivity ].
Qed.

(** With "ET" the stored end date is the parsed civil time moved by the
    offset of the SYSTEM zone. *)
Lemma end_date_eastern (resp : Response Market.info_json) (m : Market.t) t u :
  ~ failed resp ->
  Market.dateEndString (json resp) <> "N/A" ->
  strip " ()" (str_from 19 (Market.dateEndString (json resp))) = "ET" ->
  strptime (str_to 19 (Market.dateEndString (json resp))) "%m/%d/%Y %I:%M %p" = Some t ->
  datetime_sub_seconds t (local_utcoffset t) = inr u ->
  Market.end_date (fst (Market._update_info resp m)) = Some (Market.VDatetime u).
Proof.
  intros Hok Hna Hzone Hparse Hshift.
  pose proof (raise_for_status_ok resp Hok) as Hstatus.
  assert (Hparse' : py_strptime (str_to 19 (Market.dateEndString (json resp)))
                      "%m/%d/%Y %I:%M %p" = inr t)
    by (unfold py_strptime; now rewrite Hparse).
  apply String.eqb_neq in Hna. apply String.eqb_eq in Hzone.
  unfold Market.end_date, Market._update_info.
  rewrite bind_lift, Hstatus, !bind_setattr, bind_eq, Hna, bind_lift, Hparse'.
  rewrite Hzone, bind_lift. unfold Market.astimezone_eastern_utc. rewrite Hshift.
  unfold Market.setattr at 1, modify at 1. rewrite !bind_setattr, bind_lift.
  destruct (py_strptime (Market.dateOpened (json resp)) "%Y-%m-%dT%H:%M:%S.%f");
    [| rewrite !bind_setattr; unfold ret]; cbn [fst];
    repeat (rewrite lookup_insert_ne by discriminate); apply lookup_insert_eq.
Qed.

End market.

Lemma pair_of_snd {A B} (p : A * B) (b : B) : snd p = b -> p = (fst p, b).
Proof. destruct p. cbn. now intros ->. Defined.

Lemma update_all_per_response_witness :
  let R := fixed_zone_runtime 0 in
  let r0 := Examples.info_payload "N/A" in
  let r1 := Examples.contracts_payload 500 in
  let m1 := fst (Market._update_info r0 Examples.old_market) in
  Market.update_all (r0, r1) Examples.old_market = (m1, inl (HTTPError 500)) /\
  Market.contract_ids m1 = Market.contract_ids Examples.old_market.
Proof.
  intros R r0 r1 m1.
  apply (proj1 (proj2 (update_all_per_response r0 r1 Examples.old_market)) m1 r0).
  - apply pair_of_snd. vm_compute. reflexivity.
  - unfold failed. simpl. lia.
Defined.

(** C3 as the specification words it fails: the info response is good, the
    contracts response is a 500, and after refresh-all the market name is
    the new one although the refresh raised. *)
Lemma refresh_all_atomic_counterexample :
  failed (Examples.contracts_payload 500) /\
  Market.market_name Examples.old_market = Some (Market.VStr "Old name") /\
  Market.market_name
    (fst (@Market.update_all (fixed_zone_runtime 0)
            (Examples.info_payload "N/A", Examples.contracts_payload 500)
            Examples.old_market))
  = Some (Market.VStr "Sample market") /\
  ~ @Spec.refresh_all_atomic (fixed_zone_runtime 0)
      (Examples.info_payload "N/A", Examples.contracts_payload 500)
      Examples.old_market.
Proof.
  split; [unfold failed; simpl; lia |].
  split; [vm_compute; reflexivity |].
  split; [vm_compute; reflexivity |].
  intros Hatomic.
  assert (Hf : failed (fst (Examples.info_payload "N/A", Examples.contracts_payload 500))
               \/ failed (snd (Examples.info_payload "N/A", Examples.contracts_payload 500)))
    by (right; unfold failed; simpl; lia).
  apply Hatomic in Hf.
  apply (f_equal Market.market_name) in Hf. vm_compute in Hf. discriminate.
Qed.

(** C6, the code at a failing input: for "03/01/2024 09:00 PM (ET)" the
    stored end date is 2024-03-01 21:00 on a machine whose zone is UTC and
    2024-03-01 12:00 on one at UTC+9, while 9 PM Eastern on that date is
    2024-03-02 02:00 UTC.  The result follows the system zone and is the
    Eastern conversion on neither machine. *)
Theorem end_date_follows_system_zone :
  let payload := Examples.info_payload "03/01/2024 09:00 PM (ET)" in
  Market.end_date
    (fst (@Market._update_info (fixed_zone_runtime 0) payload Examples.old_market))
  = Some (Market.VDatetime (mkDatetime 2024 3 1 21 0 0 0)) /\
  Market.end_date
    (fst (@Market._update_info (fixed_zone_runtime 32400) payload Examples.old_market))
  = Some (Market.VDatetime (mkDatetime 2024 3 1 12 0 0 0)) /\
  Spec.eastern_to_utc (mkDatetime 2024 3 1 21 0 0 0)
  = inr (mkDatetime 2024 3 2 2 0 0 0).
Proof. repeat split; vm_compute; reflexivity. Qed.

Lemma eastern_to_utc_eq (t : datetime) :
  Spec.eastern_to_utc t = datetime_sub_seconds t (Spec.eastern_utcoffset t).
Proof. reflexivity. Qed.

(** The conversion is the Eastern one exactly when the system zone is
    Eastern at that time. *)
Lemma end_date_on_eastern_machine `{Runtime}
    (resp : Response Market.info_json) (m : Market.t) t u :
  ~ failed resp ->
  Market.dateEndString (json resp) <> "N/A" ->
  strip " ()" (str_from 19 (Market.dateEndString (json resp))) = "ET" ->
  strptime (str_to 19 (Market.dateEndString (json resp))) "%m/%d/%Y %I:%M %p" = Some t ->
  local_utcoffset t = Spec.eastern_utcoffset t ->
  Spec.eastern_to_utc t = inr u ->
  Market.end_date (fst (Market._update_info resp m)) = Some (Market.VDatetime u).
Proof.
  intros Hok Hna Hzone Hparse Hoffset Hutc.
  rewrite eastern_to_utc_eq, <- Hoffset in Hutc.
  exact (end_date_eastern resp m t u Hok Hna Hzone Hparse Hutc).
Qed.

(** ** List-valued properties and aliasing *)

Module AliasingFacts.
Import Aliasing.

(** The internal list a property reads, and what it makes of its contents. *)
Definition source (a : accessor) (o : objects) : option loc :=
  match a with
  | Market_contract_ids => Some (Market._contract_ids (market o))
  | Account_my_market_ids => Some (Account._my_market_ids (account o))
  | Account_my_contract_ids => Some (Account._my_contract_ids (account o))
  | Contract_yes_asks | Contract_no_bids => Contract._order_book (contract o) !! 1
  | Contract_yes_bids | Contract_no_asks => Contract._order_book (contract o) !! 0
  | Contract_my_no_bids => Contract._my_orders (contract o) !! 0
  | Contract_my_yes_bids => Contract._my_orders (contract o) !! 1
  | Contract_my_no_asks => Contract._my_orders (contract o) !! 2
  | Contract_my_yes_asks => Contract._my_orders (contract o) !! 3
  end.

Definition view (a : accessor) (v : list item) : result (list item) :=
  match a with
  | Contract_no_asks | Contract_no_bids => complement_items v
  | _ => inr v
  end.

Lemma new_list_fresh (v : list item) (h : store) :
  h !! fst (new_list v h) = None /\ snd (new_list v h) = <[fst (new_list v h) := v]> h.
Proof.
  unfold new_list. cbn. split; [| reflexivity].
  apply not_elem_of_dom. apply is_fresh.
Qed.

(** A read looks at one internal list and allocates one new list. *)
Lemma read_inv (a : accessor) (o : objects) (h : store) r h1 :
  read a o h = inr (r, h1) ->
  exists l v w,
    source a o = Some l /\ h !! l = Some v /\ view a v = inr w /\
    (r, h1) = new_list w h.
Proof.
  destruct a; cbn;
    unfold Market.contract_ids, Account.my_market_ids, Account.my_contract_ids,
      Contract.yes_asks, Contract.yes_bids, Contract.no_asks, Contract.no_bids,
      Contract.my_no_bids, Contract.my_yes_bids, Contract.my_no_asks,
      Contract.my_yes_asks, at_key, list_copy, complement_comprehension;
    repeat match goal with
           | |- context [match ?x with _ => _ end] => destruct x eqn:?
           end;
    intros [= <- <-]; do 3 eexists; repeat split; eauto.
Qed.

Lemma read_of_source (a : accessor) (o : objects) (h : store) l v w :
  source a o = Some l -> h !! l = Some v -> view a v = inr w ->
  read a o h = inr (new_list w h).
Proof.
  destruct a; cbn;
    unfold Market.contract_ids, Account.my_market_ids, Account.my_contract_ids,
      Contract.yes_asks, Contract.yes_bids, Contract.no_asks, Contract.no_bids,
      Contract.my_no_bids, Contract.my_yes_bids, Contract.my_no_asks,
      Contract.my_yes_asks, at_key, list_copy, complement_comprehension;
    intros Hl Hv Hw; try injection Hl as ->; try injection Hw as <-;
    rewrite ?Hl, ?Hv, ?Hw; reflexivity.
Qed.

(** C10: every list-valued property returns a new list object.  For each
    of them, in every store: the returned reference was not allocated
    before the read; the read changes no list that existed; after ANY
    in-place change of the returned list every list that existed before
    the read, the internal ones among them, has its old contents; and a
    second read, with no refresh in between, returns a list equal to what
    the first read returned. *)
Theorem accessors_return_new_lists (a : accessor) (o : objects) (h : store) r h1 :
  read a o h = inr (r, h1) ->
  h !! r = None /\
  (forall l, is_Some (h !! l) -> h1 !! l = h !! l) /\
  forall v',
    (forall l, is_Some (h !! l) -> mutate r v' h1 !! l = h !! l) /\
    exists r2 h2,
      read a o (mutate r v' h1) = inr (r2, h2) /\ h2 !! r2 = h1 !! r.
Proof.
  intros Hread.
  destruct (read_inv a o h r h1 Hread) as (l & v & w & Hsrc & Hl & Hview & Hnew).
  destruct (new_list_fresh w h) as [Hfresh Hstore].
  rewrite <- Hnew in Hfresh, Hstore. cbn [fst snd] in Hfresh, Hstore.
  assert (Hother : forall l', is_Some (h !! l') -> l' <> r).
  { intros l' [x Hx] ->. congruence. }
  split; [exact Hfresh |]. split.
  - intros l' Hl'. rewrite Hstore. apply lookup_insert_ne.
    intros <-. now apply (Hother r).
  - intros v'. unfold mutate. split.
    + intros l' Hl'. rewrite Hstore, insert_insert_eq. apply lookup_insert_ne.
      intros <-. now apply (Hother r).
    + assert (Hl2 : <[r := v']> h1 !! l = Some v).
      { rewrite Hstore, insert_insert_eq, lookup_insert_ne; [exact Hl |].
        intros <-. apply (Hother r); eauto. }
      pose proof (read_of_source a o _ l v w Hsrc Hl2 Hview) as Hread2.
      destruct (new_list w (<[r := v']> h1)) as [r2 h2] eqn:Hnew2.
      exists r2, h2. split; [exact Hread2 |].
      destruct (new_list_fresh w (<[r := v']> h1)) as [_ Hstore2].
      rewrite Hnew2 in Hstore2. cbn [fst snd] in Hstore2.
      rewrite Hstore2, Hstore, !lookup_insert_eq. reflexivity.
Qed.

(** The properties do return when the object's lists exist and the book
    sides hold pairs. *)
Lemma read_returns (a : accessor) (o : objects) (h : store) l v :
  source a o = Some l -> h !! l = Some v ->
  Forall (fun x => exists p q, x = ITuple p q) v ->
  exists r h1, read a o h = inr (r, h1).
Proof.
  intros Hl Hv Hpairs.
  assert (Hview : exists w, view a v = inr w).
  { destruct a; cbn; eauto.
    all: clear Hv; induction Hpairs as [| x v (p & q & ->) _ [w IH]]; cbn; eauto;
      rewrite IH; eauto. }
  destruct Hview as [w Hw].
  rewrite (read_of_source a o h l v w Hl Hv Hw).
  destruct (new_list w h) as [r h1]. eauto.
Qed.

End AliasingFacts.

Lemma accessors_return_new_lists_witness :
  let h := Examples.sample_store in
  let o := Examples.sample_objects in
  let r := 4%positive in
  let h1 := <[r := [Aliasing.ITuple (1 - (4#10)) 10; Aliasing.ITuple (1 - (5#10)) 2]]> h in
  Aliasing.read Aliasing.Contract_no_bids o h = inr (r, h1) /\
  h !! r = None /\
  (forall l, is_Some (h !! l) -> h1 !! l = h !! l) /\
  forall v',
    (forall l, is_Some (h !! l) -> Aliasing.mutate r v' h1 !! l = h !! l) /\
    exists r2 h2,
      Aliasing.read Aliasing.Contract_no_bids o (Aliasing.mutate r v' h1) = inr (r2, h2) /\
      h2 !! r2 = h1 !! r.
Proof.
  intros h o r h1.
  assert (Hread : Aliasing.read Aliasing.Contract_no_bids o h = inr (r, h1))
    by (vm_compute; reflexivity).
  split; [exact Hread |].
  exact (AliasingFacts.accessors_return_new_lists Aliasing.Contract_no_bids o h r h1 Hread).
Defined.

(** * Further properties of the code *)

(** ** utils.py: failures and completion order *)

Section concurrent_get_more.
Context {R : Type}.

Local Abbreviation future := (@utils.future R).

(** The comprehension stops at the first future, in list order, whose
    [result] raises. *)
Lemma results_first_raise (fs : list future) :
  forall (i : nat) f e,
    (forall (j : nat), (j < i)%nat -> exists r, fs !! j = Some (Some (inr r))) ->
    fs !! i = Some f -> utils.future_result f = inl e ->
    utils.results fs = inl e.
Proof.
  induction fs as [| f0 fs IH]; intros i f e Hbefore Hi He.
  - rewrite lookup_nil in Hi. discriminate.
  - destruct i as [| i]; cbn in Hi.
    + injection Hi as ->. cbn. now rewrite He.
    + destruct (Hbefore 0%nat ltac:(lia)) as [r Hr]. cbn in Hr. injection Hr as ->.
      cbn. rewrite (IH i f e); [reflexivity | | exact Hi | exact He].
      intros j Hj. apply (Hbefore (S j)). lia.
Qed.



(** When every task completes and the answers do not depend on the time,
    the futures end up holding the answers of their own URLs. *)
Lemma run_pool_complete (g : string -> result R) urls schedule :
  (forall i : nat, (i < length urls)%nat -> i ∈ schedule) ->
  utils.run_pool (fun _ => g) urls 0 schedule (utils.submit_all urls)
  = map (fun url => Some (g url)) urls.
Proof.
  intros Hall. apply list_eq. intros i.
  rewrite list_lookup_fmap.
  destruct (urls !! i) as [url |] eqn:Hurl; cbn.
  - assert (Hi : (i < length urls)%nat) by (eapply lookup_lt_Some; exact Hurl).
    destruct (run_pool_done (fun _ => g) urls schedule 0 (utils.submit_all urls) i
                (length_submit_all urls) Hi (Hall i Hi)) as [o Ho].
    pose proof Ho as Hfill.
    apply run_pool_filled in Hfill as [Hpending | (j & url' & _ & Hurl' & ->)].
    + apply submit_all_pending in Hpending. discriminate.
    + rewrite Hurl in Hurl'. injection Hurl' as <-. exact Ho.
  - apply lookup_ge_None. rewrite length_run_pool, length_submit_all.
    apply lookup_ge_None in Hurl. exact Hurl.
Qed.

(** X1: the result does not depend on the completion order: two schedules in
    which every task completes give the same list, or the same exception,
    when the server's answers do not depend on the time of the request. *)
Theorem concurrent_get_any_order (g : string -> result R) (urls : list string)
    (schedule1 schedule2 : list nat) :
  (forall i : nat, (i < length urls)%nat -> i ∈ schedule1) ->
  (forall i : nat, (i < length urls)%nat -> i ∈ schedule2) ->
  utils.concurrent_get (fun _ => g) urls schedule1
  = utils.concurrent_get (fun _ => g) urls schedule2.
Proof.
  intros H1 H2. unfold utils.concurrent_get.
  now rewrite (run_pool_complete g urls schedule1 H1),
              (run_pool_complete g urls schedule2 H2).
Qed.

(** X2: when several requests fail, the exception that concurrent_get raises is
    the one of the first failing URL in the order of the list, not of the
    request that failed first in time. *)
Theorem concurrent_get_first_error (g : string -> result R) (urls : list string)
    (schedule : list nat) (i : nat) url e :
  (forall j : nat, (j < length urls)%nat -> j ∈ schedule) ->
  urls !! i = Some url -> g url = inl e ->
  (forall (j : nat) url', (j < i)%nat -> urls !! j = Some url' ->
                          exists r, g url' = inr r) ->
  utils.concurrent_get (fun _ => g) urls schedule = inl e.
Proof.
  intros Hall Hurl He Hbefore. unfold utils.concurrent_get.
  rewrite (run_pool_complete g urls schedule Hall).
  apply (results_first_raise _ i (Some (g url)) e).
  - intros j Hj. rewrite list_lookup_fmap.
    destruct (urls !! j) as [url' |] eqn:Hj'.
    + destruct (Hbefore j url' Hj Hj') as [r Hr]. cbn. rewrite Hr. eauto.
    + apply lookup_ge_None in Hj'. apply lookup_lt_Some in Hurl. lia.
  - rewrite list_lookup_fmap, Hurl. reflexivity.
  - exact He.
Qed.


End concurrent_get_more.


Definition flaky (url : string) : result string :=
  if String.eqb url "b" then inl (RequestException "b is down")
  else if String.eqb url "c" then inl (HTTPError 500)
  else inr url.

Lemma schedule_covers_3 (schedule : list nat) :
  0%nat ∈ schedule -> 1%nat ∈ schedule -> 2%nat ∈ schedule ->
  forall i : nat, (i < length ["a"; "b"; "c"])%nat -> i ∈ schedule.
Proof.
  intros H0 H1 H2 i Hi. cbn in Hi.
  destruct i as [| [| [| i]]]; [assumption | assumption | assumption | lia].
Defined.

Lemma concurrent_get_any_order_witness :
  utils.concurrent_get (fun _ => flaky) ["a"; "b"; "c"] [2; 0; 1]%nat
  = utils.concurrent_get (fun _ => flaky) ["a"; "b"; "c"] [0; 1; 2]%nat.
Proof.
  apply (concurrent_get_any_order flaky ["a"; "b"; "c"] [2; 0; 1]%nat [0; 1; 2]%nat);
    apply schedule_covers_3; repeat constructor.
Defined.

(** "c" fails first in time, "b" first in the list: the exception is the
    one of "b". *)
Lemma concurrent_get_first_error_witness :
  utils.concurrent_get (fun _ => flaky) ["a"; "b"; "c"] [2; 1; 0]%nat
  = inl (RequestException "b is down").
Proof.
  apply (concurrent_get_first_error flaky ["a"; "b"; "c"] [2; 1; 0]%nat 1%nat "b").
  - apply schedule_covers_3; repeat constructor.
  - reflexivity.
  - reflexivity.
  - intros j url' Hj Hurl'. destruct j as [| j]; [| lia].
    injection Hurl' as <-. eexists. reflexivity.
Defined.


(** ** utils.py: notify_ifttt *)

(** X4: notify_ifttt sends its request exactly when a key is available, as
    argument or in the environment, and the message is a non-empty string.
    The request then goes to the trigger URL of the key, the argument taking
    precedence over the environment, with title, message and link as
    value1, value2 and value3.  Without any key it raises KeyError whatever
    the message: the message is checked second. *)
Theorem notify_ifttt_sends (environ : gmap string string)
    (message title link key : option string) :
  ((exists post, utils.notify_ifttt environ message title link key = inr post) <->
   (is_Some key \/ is_Some (environ !! "IFTTT_WEBHOOK_KEY")) /\
   exists text, message = Some text /\ text <> "") /\
  (forall post, utils.notify_ifttt environ message title link key = inr post ->
     exists k,
       (key = Some k \/ (key = None /\ environ !! "IFTTT_WEBHOOK_KEY" = Some k)) /\
       utils.post_url post
         = "https://maker.ifttt.com/trigger/predictit_trade/with/key/" ++ k /\
       utils.value1 post = title /\
       message = Some (utils.value2 post) /\
       utils.value3 post = link) /\
  (key = None -> environ !! "IFTTT_WEBHOOK_KEY" = None ->
   utils.notify_ifttt environ message title link key
   = inl (utils.KeyError_environ "IFTTT_WEBHOOK_KEY")).
Proof.
  unfold utils.notify_ifttt. split; [| split].
  - split.
    + intros [post Hpost].
      destruct key as [k |]; [| destruct (environ !! "IFTTT_WEBHOOK_KEY") as [k |] eqn:Henv];
        try discriminate;
        (destruct message as [text |]; [| discriminate];
         destruct text as [| c text]; [discriminate |];
         split; [eauto | exists (String c text); split; [reflexivity | discriminate]]).
    + intros [Hkey (text & -> & Htext)].
      destruct text as [| c text]; [congruence |].
      destruct key as [k |]; [cbn; eauto |].
      destruct Hkey as [[k Hk] | [k Hk]]; [discriminate |].
      rewrite Hk. cbn. eauto.
  - intros post Hpost.
    destruct key as [k |]; [| destruct (environ !! "IFTTT_WEBHOOK_KEY") as [k |] eqn:Henv];
      try discriminate;
      (destruct message as [text |]; [| discriminate];
       destruct text as [| c text]; [discriminate |];
       cbn in Hpost; injection Hpost as <-; exists k; cbn; auto 10).
  - intros -> ->. reflexivity.
Qed.

Lemma notify_ifttt_sends_witness :
  exists k,
    (Some "abc" = Some k \/
     (Some "abc" = None /\ (∅ : gmap string string) !! "IFTTT_WEBHOOK_KEY" = Some k)) /\
    utils.post_url (utils.mkIftttPost
        "https://maker.ifttt.com/trigger/predictit_trade/with/key/abc"
        None "filled" (Some "https://www.predictit.org"))
      = "https://maker.ifttt.com/trigger/predictit_trade/with/key/" ++ k /\
    utils.value1 (utils.mkIftttPost
        "https://maker.ifttt.com/trigger/predictit_trade/with/key/abc"
        None "filled" (Some "https://www.predictit.org")) = None /\
    Some "filled" = Some (utils.value2 (utils.mkIftttPost
        "https://maker.ifttt.com/trigger/predictit_trade/with/key/abc"
        None "filled" (Some "https://www.predictit.org"))) /\
    utils.value3 (utils.mkIftttPost
        "https://maker.ifttt.com/trigger/predictit_trade/with/key/abc"
        None "filled" (Some "https://www.predictit.org"))
      = Some "https://www.predictit.org".
Proof.
  apply (proj1 (proj2 (notify_ifttt_sends ∅ (Some "filled") None
                         (Some "https://www.predictit.org") (Some "abc")))).
  reflexivity.
Defined.

(** ** contract.py: what _post_order lets through *)

(** X5: whatever the trade type and the position, _post_order reaches its
    POST only with an integer quantity above zero and a price of 1 to 99
    cents, the truncation of 100 * price; the data carry the contract's id
    and the trade type as given. *)
Theorem post_order_data_in_range trade_type price quantity c data :
  Contract._post_order_data trade_type price quantity c = inr data ->
  1 <= Contract.data_pricePerShare data <= 99 /\
  Contract.data_pricePerShare data = py_int (100 * price) /\
  quantity = PyInt (Contract.data_quantity data) /\
  0 < Contract.data_quantity data /\
  Contract.data_contractId data = Contract.contract_id c /\
  Contract.data_tradeType data = trade_type.
Proof.
  unfold Contract._post_order_data.
  destruct ((1 <=? py_int (100 * price)) && (py_int (100 * price) <=? 99)) eqn:Hprice;
    cbn [negb]; [| discriminate].
  apply andb_true_iff in Hprice as [Hlo Hhi].
  apply Z.leb_le in Hlo. apply Z.leb_le in Hhi.
  destruct quantity as [n | | |]; try discriminate.
  destruct (n <=? 0) eqn:Hn; [discriminate |]. apply Z.leb_gt in Hn.
  repeat match goal with
         | |- context [match ?x with _ => _ end] => destruct x; try discriminate
         end;
    intros [= <-]; cbn; auto 10.
Qed.

Lemma post_order_data_in_range_witness :
  let data := Contract.mkTrade 50 10 7 (PyStr "1") in
  1 <= Contract.data_pricePerShare data <= 99 /\
  Contract.data_pricePerShare data = py_int (100 * (1#2)) /\
  PyInt 10 = PyInt (Contract.data_quantity data) /\
  0 < Contract.data_quantity data /\
  Contract.data_contractId data = Contract.contract_id Examples.flat /\
  Contract.data_tradeType data = PyStr "1".
Proof.
  intros data.
  apply (post_order_data_in_range (PyStr "1") (1#2) (PyInt 10) Examples.flat data).
  reflexivity.
Defined.

Lemma py_int_100 (price : Q) :
  py_int (100 * price) = Z.quot (100 * Qnum price) (Zpos (Qden price)).
Proof. destruct price as [n d]. reflexivity. Qed.

Lemma price_in_cents (price : Q) :
  1 <= py_int (100 * price) <= 99 <-> ((1#100) <= price /\ price < 1)%Q.
Proof.
  rewrite py_int_100. destruct price as [n d]. unfold Qle, Qlt. cbn [Qnum Qden].
  assert (Hd : 0 < Zpos d) by lia.
  destruct (Z_lt_le_dec n 0) as [Hneg | Hpos].
  - assert (Z.quot (100 * n) (Zpos d) <= 0).
    { replace (100 * n) with (- (100 * (- n))) by lia.
      rewrite Z.quot_opp_l by lia.
      assert (0 <= Z.quot (100 * - n) (Zpos d)) by (apply Z.quot_pos; lia). lia. }
    split; [lia |]. intros [H1 H2]. lia.
  - rewrite Z.quot_div_nonneg by lia. split.
    + intros [Hlo Hhi]. split.
      * assert (Zpos d <= 100 * n).
        { destruct (Z_lt_le_dec (100 * n) (Zpos d)) as [Hlt | Hle]; [| exact Hle].
          rewrite Z.div_small in Hlo by lia. lia. }
        lia.
      * assert (100 * n < 100 * Zpos d).
        { destruct (Z_lt_le_dec (100 * n) (100 * Zpos d)) as [Hlt | Hle]; [exact Hlt |].
          assert (100 <= 100 * n / Zpos d).
          { apply Z.div_le_lower_bound; lia. }
          lia. }
        lia.
    + intros [Hlo Hhi]. split.
      * apply Z.div_le_lower_bound; lia.
      * assert (100 * n / Zpos d < 100) by (apply Z.div_lt_upper_bound; lia). lia.
Qed.

(** X6: the price check of _post_order accepts exactly the prices from
    $0.01 inclusive to $1.00 exclusive: a part of a cent is cut off, not
    rounded, so 0.999 passes as 99 cents and 0.009 is rejected. *)
Theorem price_check_window trade_type (price : Q) quantity c :
  Contract._post_order_data trade_type price quantity c = inl ValueError_price
  <-> ~ ((1#100) <= price /\ price < 1)%Q.
Proof.
  rewrite <- price_in_cents. unfold Contract._post_order_data.
  destruct ((1 <=? py_int (100 * price)) && (py_int (100 * price) <=? 99)) eqn:Hprice;
    cbn [negb].
  - apply andb_true_iff in Hprice as [Hlo Hhi].
    apply Z.leb_le in Hlo. apply Z.leb_le in Hhi. split; [| intros Hn; lia].
    destruct quantity as [n | | |]; try discriminate.
    destruct (n <=? 0); [discriminate |].
    destruct (Contract.my_prediction c) as [p |];
      repeat match goal with
             | |- context [if ?b then _ else _] => destruct b; try discriminate
             end.
  - split; [| reflexivity]. intros _ [Hlo Hhi].
    apply Z.leb_le in Hlo. apply Z.leb_le in Hhi. rewrite Hlo, Hhi in Hprice. discriminate.
Qed.


(** ** contract.py: the best order and sorted payloads *)

Lemma list_sort_head_least (l : list (Q * Z)) first rest x :
  list_sort l = first :: rest -> x ∈ l -> (fst first <= fst x)%Q.
Proof.
  intros Hsort Hx.
  assert (Hin : x ∈ first :: rest).
  { rewrite <- Hsort. eapply elem_of_Permutation_proper; [| exact Hx].
    symmetry. apply list_sort_Permutation. }
  pose proof (list_sort_StronglySorted l) as Hsorted. rewrite Hsort in Hsorted.
  apply elem_of_cons in Hin as [-> | Hin]; [lra |].
  apply StronglySorted_inv in Hsorted as [_ Hall].
  rewrite Forall_forall in Hall. apply tuple_le_price, Hall, Hin.
Qed.

Lemma tuples_elem_of (orders : list Contract.order_json) n :
  n ∈ orders ->
  (Contract.order_pricePerShare n, Contract.order_quantity n) ∈ Contract.tuples orders.
Proof.
  intros Hn. unfold Contract.tuples.
  apply (list_elem_of_fmap_2 (fun n => (Contract.order_pricePerShare n, Contract.order_quantity n))).
  exact Hn.
Qed.

(** X8: after an order-book update the best orders come first: the first
    entry of yes_asks has the lowest price of all yes orders of the payload,
    and the first entry of no_bids has the highest price, one minus that
    lowest yes price, of all no bids. *)
Theorem best_order_first (resp : Response Contract.orderbook_json) (c : Contract.t) :
  ~ failed resp ->
  let c' := fst (Contract._update_order_book resp c) in
  (forall first rest n,
      Contract.yes_asks c' = inr (first :: rest) ->
      n ∈ Contract.yesOrders (json resp) ->
      (fst first <= Contract.order_pricePerShare n)%Q) /\
  (forall first rest n,
      Contract.no_bids c' = inr (first :: rest) ->
      n ∈ Contract.yesOrders (json resp) ->
      (1 - Contract.order_pricePerShare n <= fst first)%Q) /\
  (Contract.yes_asks c' = inr [] <-> Contract.yesOrders (json resp) = []).
Proof.
  intros Hok c'.
  destruct (_update_order_book_ok resp c Hok) as (c1 & Hrun & Hyes & Hno).
  assert (Hc' : c' = c1) by (unfold c'; now rewrite Hrun). rewrite Hc'. clear Hc' c'.
  destruct (derived_views_core c1 _ _ Hyes Hno) as (Hya & _ & _ & Hnb).
  rewrite Hya, Hnb. split; [| split].
  - intros first rest n [= Hsort] Hn.
    apply (list_sort_head_least _ _ _ _ Hsort (tuples_elem_of _ _ Hn)).
  - intros first rest n [= Hsort] Hn.
    destruct (list_sort (Contract.tuples (Contract.yesOrders (json resp))))
      as [| [p q] sorted] eqn:Hsorted; [discriminate |].
    cbn in Hsort. injection Hsort as <- _. cbn.
    pose proof (list_sort_head_least _ _ _ _ Hsorted (tuples_elem_of _ _ Hn)) as Hle.
    cbn in Hle. lra.
  - split.
    + intros [= Hnil].
      pose proof (list_sort_Permutation (Contract.tuples (Contract.yesOrders (json resp)))) as Hperm.
      rewrite Hnil in Hperm. apply Permutation_nil_r in Hperm.
      unfold Contract.tuples in Hperm.
      destruct (Contract.yesOrders (json resp)); [reflexivity | discriminate].
    + intros ->. reflexivity.
Qed.

Lemma best_order_first_witness :
  let c' := fst (Contract._update_order_book Examples.book_payload Examples.flat) in
  (forall first rest n,
      Contract.yes_asks c' = inr (first :: rest) ->
      n ∈ Contract.yesOrders (json Examples.book_payload) ->
      (fst first <= Contract.order_pricePerShare n)%Q) /\
  (forall first rest n,
      Contract.no_bids c' = inr (first :: rest) ->
      n ∈ Contract.yesOrders (json Examples.book_payload) ->
      (1 - Contract.order_pricePerShare n <= fst first)%Q) /\
  (Contract.yes_asks c' = inr [] <-> Contract.yesOrders (json Examples.book_payload) = []).
Proof.
  apply (best_order_first Examples.book_payload Examples.flat).
  unfold failed. simpl. lia.
Defined.

Lemma list_sort_sorted (l : list (Q * Z)) :
  StronglySorted tuple_le l -> list_sort l = l.
Proof.
  induction 1 as [| x l Hl IH Hx]; [reflexivity |].
  cbn. rewrite IH. destruct l as [| y l']; [reflexivity |].
  cbn. apply Forall_cons in Hx as [Hxy _].
  apply tuple_lt_false in Hxy. now rewrite Hxy.
Qed.

(** X9: a payload whose orders already come sorted, by price and among
    equal prices by quantity, is stored in exactly the order it came in. *)
Theorem sorted_payload_kept (resp : Response Contract.orderbook_json) (c : Contract.t) :
  ~ failed resp ->
  StronglySorted tuple_le (Contract.tuples (Contract.yesOrders (json resp))) ->
  StronglySorted tuple_le (Contract.tuples (Contract.noOrders (json resp))) ->
  Contract.yes_asks (fst (Contract._update_order_book resp c))
    = inr (Contract.tuples (Contract.yesOrders (json resp))) /\
  Contract.yes_bids (fst (Contract._update_order_book resp c))
    = inr (Contract.tuples (Contract.noOrders (json resp))).
Proof.
  intros Hok Hyes_sorted Hno_sorted.
  destruct (_update_order_book_ok resp c Hok) as (c1 & Hrun & Hyes & Hno).
  rewrite Hrun. cbn [fst].
  destruct (derived_views_core c1 _ _ Hyes Hno) as (Hya & Hyb & _ & _).
  rewrite Hya, Hyb, (list_sort_sorted _ Hyes_sorted), (list_sort_sorted _ Hno_sorted).
  auto.
Qed.

Lemma sorted_payload_kept_witness :
  let resp := mkResponse 200
      (Contract.mkOrderBook
         [Contract.mkOrder (4#10) 10; Contract.mkOrder (5#10) 2]
         [Contract.mkOrder (3#10) 5]) in
  Contract.yes_asks (fst (Contract._update_order_book resp Examples.flat))
    = inr [((4#10)%Q, 10); ((5#10)%Q, 2)] /\
  Contract.yes_bids (fst (Contract._update_order_book resp Examples.flat))
    = inr [((3#10)%Q, 5)].
Proof.
  intros resp. apply (sorted_payload_kept resp Examples.flat).
  - unfold failed. simpl. lia.
  - repeat constructor.
  - repeat constructor.
Defined.

(** ** contract.py: own orders *)

Section own_orders.
Context `{Runtime}.

(** The [OwnOrder] made of a raw offer, when its date is accepted. *)
Definition own_order_of (raw : Contract.offer_json) : option Contract.OwnOrder :=
  match strptime (Contract.dateCreated raw) "%Y-%m-%dT%H:%M:%S.%f" with
  | Some date =>
      Some (Contract.mkOwnOrder (Contract.offerId raw) (Contract.contractId raw)
              (Contract.offer_pricePerShare raw) (Contract.quantity raw)
              (Contract.remainingQuantity raw) date (Contract.isProcessed raw))
  | None => None
  end.

(** The orders of trade type [k] among the offers, in their order. *)
Fixpoint orders_of (k : Z) (offers : list Contract.offer_json) : list Contract.OwnOrder :=
  match offers with
  | [] => []
  | raw :: rest =>
      match own_order_of raw with
      | Some order =>
          if Contract.tradeType raw =? k then order :: orders_of k rest
          else orders_of k rest
      | None => orders_of k rest
      end
  end.

(** An offer the loop can file: a trade type from 0 to 3 and a date that
    parses. *)
Definition valid_offer (raw : Contract.offer_json) : Prop :=
  0 <= Contract.tradeType raw <= 3 /\ is_Some (own_order_of raw).

Lemma empty_buckets_lookup (k : Z) :
  Contract.empty_buckets !! k = if (0 <=? k) && (k <=? 3) then Some [] else None.
Proof.
  unfold Contract.empty_buckets.
  destruct (decide (k = 3)) as [-> | ?]; [reflexivity |].
  destruct (decide (k = 2)) as [-> | ?]; [reflexivity |].
  destruct (decide (k = 1)) as [-> | ?]; [reflexivity |].
  destruct (decide (k = 0)) as [-> | ?]; [reflexivity |].
  rewrite !lookup_insert_ne, lookup_empty by congruence.
  destruct (0 <=? k) eqn:E1; destruct (k <=? 3) eqn:E2; try reflexivity.
  apply Z.leb_le in E1. apply Z.leb_le in E2. lia.
Qed.

(** The loop appends each offer to the bucket of its trade type and leaves
    the rest of the object alone. *)
Lemma offers_loop_ok (offers : list Contract.offer_json) :
  Forall (fun raw => is_Some (own_order_of raw)) offers ->
  forall c,
    (forall raw, raw ∈ offers -> is_Some (Contract._my_orders c !! Contract.tradeType raw)) ->
    exists c',
      Contract.offers_loop offers c = (c', inr tt) /\
      c' = Contract.set_my_orders (Contract._my_orders c') c /\
      forall k, Contract._my_orders c' !! k
                = (fun bucket => (bucket ++ orders_of k offers)%list)
                    <$> Contract._my_orders c !! k.
Proof.
  induction 1 as [| raw rest [order Horder] _ IH]; intros c Hkeys.
  - exists c. cbn. split; [reflexivity |]. split; [now destruct c |].
    intros k. destruct (Contract._my_orders c !! k); cbn; [| reflexivity].
    now rewrite app_nil_r.
  - cbn [Contract.offers_loop]. unfold py_strptime.
    unfold own_order_of in Horder.
    destruct (strptime (Contract.dateCreated raw) "%Y-%m-%dT%H:%M:%S.%f")
      as [date |] eqn:Hdate; [| discriminate].
    injection Horder as Horder.
    rewrite bind_lift, bind_eq. unfold Contract.append_order at 1.
    destruct (Hkeys raw ltac:(left)) as [bucket Hbucket].
    rewrite (getitem_Some _ _ _ Hbucket).
    match goal with
    | |- context [Contract.offers_loop rest ?c1] =>
        destruct (IH c1) as (c' & Hrun & Hframe & Hlookup)
    end.
    { intros raw' Hraw'. cbn [Contract._my_orders Contract.set_my_orders].
      destruct (decide (Contract.tradeType raw = Contract.tradeType raw')) as [<- | Hne].
      - rewrite lookup_insert_eq. eauto.
      - rewrite lookup_insert_ne by exact Hne. apply Hkeys. now right. }
    exists c'. rewrite Hrun. split; [reflexivity |]. split.
    + rewrite Hframe at 1. now destruct c.
    + intros k. rewrite Hlookup. cbn [Contract._my_orders Contract.set_my_orders].
      cbn [orders_of]. unfold own_order_of. rewrite Hdate, Horder.
      destruct (decide (Contract.tradeType raw = k)) as [<- | Hne].
      * rewrite lookup_insert_eq, Hbucket, Z.eqb_refl. cbn.
        now rewrite <- app_assoc.
      * rewrite lookup_insert_ne by exact Hne.
        destruct (Contract.tradeType raw =? k) eqn:E; [apply Z.eqb_eq in E; congruence |].
        reflexivity.
Qed.

Lemma offers_loop_app (l1 l2 : list Contract.offer_json) :
  forall c,
    Contract.offers_loop (l1 ++ l2) c
    = match Contract.offers_loop l1 c with
      | (c1, inr _) => Contract.offers_loop l2 c1
      | (c1, inl e) => (c1, inl e)
      end.
Proof.
  induction l1 as [| raw rest IH]; intros c; [reflexivity |].
  cbn [app Contract.offers_loop]. rewrite !bind_lift.
  destruct (py_strptime (Contract.dateCreated raw) "%Y-%m-%dT%H:%M:%S.%f")
    as [e | date]; [reflexivity |].
  rewrite !bind_eq.
  destruct (Contract.append_order (Contract.tradeType raw) _ c) as [c1 [e | []]];
    [reflexivity | apply IH].
Qed.

Lemma _update_my_orders_run (resp : Response Contract.offers_json) c :
  ~ failed resp ->
  Contract._update_my_orders resp c
  = match Contract.offers_loop (Contract.offers (json resp))
            (Contract.set_my_orders Contract.empty_buckets c) with
    | (c', inr _) => (c', inr resp)
    | (c', inl e) => (c', inl e)
    end.
Proof.
  intros Hok. unfold Contract._update_my_orders.
  rewrite bind_lift, (raise_for_status_ok resp Hok), bind_modify, bind_eq.
  destruct (Contract.offers_loop _ _) as [c' [e | []]]; reflexivity.
Qed.

Lemma valid_offers_keys (offers : list Contract.offer_json) c :
  Forall valid_offer offers ->
  forall raw, raw ∈ offers ->
    is_Some (Contract._my_orders (Contract.set_my_orders Contract.empty_buckets c)
               !! Contract.tradeType raw).
Proof.
  intros Hvalid raw Hraw. rewrite Forall_forall in Hvalid.
  destruct (Hvalid raw Hraw) as [[Hlo Hhi] _].
  cbn. rewrite empty_buckets_lookup.
  apply Z.leb_le in Hlo. apply Z.leb_le in Hhi. rewrite Hlo, Hhi. cbn. eauto.
Qed.

Lemma _update_my_orders_ok (resp : Response Contract.offers_json) c :
  ~ failed resp ->
  Forall valid_offer (Contract.offers (json resp)) ->
  exists c',
    Contract._update_my_orders resp c = (c', inr resp) /\
    forall k, Contract._my_orders c' !! k
              = if (0 <=? k) && (k <=? 3)
                then Some (orders_of k (Contract.offers (json resp))) else None.
Proof.
  intros Hok Hvalid. rewrite (_update_my_orders_run resp c Hok).
  destruct (offers_loop_ok (Contract.offers (json resp))
              ltac:(eapply Forall_impl; [exact Hvalid | intros raw [_ Hp]; exact Hp])
              (Contract.set_my_orders Contract.empty_buckets c)
              (valid_offers_keys _ c Hvalid)) as (c' & Hrun & _ & Hlookup).
  rewrite Hrun. exists c'. split; [reflexivity |].
  intros k. rewrite Hlookup. cbn [Contract._my_orders Contract.set_my_orders].
  rewrite empty_buckets_lookup. destruct ((0 <=? k) && (k <=? 3)); reflexivity.
Qed.

(** An own-orders update of valid offers changes the buckets only. *)
Lemma _update_my_orders_frame (resp : Response Contract.offers_json) c :
  ~ failed resp ->
  Forall valid_offer (Contract.offers (json resp)) ->
  fst (Contract._update_my_orders resp c)
  = Contract.set_my_orders
      (Contract._my_orders (fst (Contract._update_my_orders resp c))) c.
Proof.
  intros Hok Hvalid. rewrite (_update_my_orders_run resp c Hok).
  destruct (offers_loop_ok (Contract.offers (json resp))
              ltac:(eapply Forall_impl; [exact Hvalid | intros raw [_ Hp]; exact Hp])
              (Contract.set_my_orders Contract.empty_buckets c)
              (valid_offers_keys _ c Hvalid)) as (c' & Hrun & Hframe & _).
  rewrite Hrun. cbn [fst]. rewrite Hframe at 1. now destruct c.
Qed.

(** X10: an own-orders update files every offer under its trade type.
    When the response is good, every trade type is 0 to 3 and every date
    parses, my_no_bids, my_yes_bids, my_no_asks and my_yes_asks are the
    offers of type 0, 1, 2 and 3, each in the order of the payload. *)
Theorem own_orders_by_trade_type (resp : Response Contract.offers_json) c :
  ~ failed resp ->
  Forall valid_offer (Contract.offers (json resp)) ->
  exists c',
    Contract._update_my_orders resp c = (c', inr resp) /\
    Contract.my_no_bids c' = inr (orders_of 0 (Contract.offers (json resp))) /\
    Contract.my_yes_bids c' = inr (orders_of 1 (Contract.offers (json resp))) /\
    Contract.my_no_asks c' = inr (orders_of 2 (Contract.offers (json resp))) /\
    Contract.my_yes_asks c' = inr (orders_of 3 (Contract.offers (json resp))).
Proof.
  intros Hok Hvalid.
  destruct (_update_my_orders_ok resp c Hok Hvalid) as (c' & Hrun & Hlookup).
  exists c'. split; [exact Hrun |].
  unfold Contract.my_no_bids, Contract.my_yes_bids, Contract.my_no_asks,
    Contract.my_yes_asks.
  repeat split; apply getitem_Some; rewrite Hlookup; reflexivity.
Qed.

(** X11: an offer whose trade type is not 0 to 3 makes the update raise
    KeyError on that trade type; the offers before it have been filed and
    stay in the buckets, the ones after it are not looked at. *)
Theorem own_orders_unknown_trade_type
    (resp : Response Contract.offers_json) c before raw after :
  ~ failed resp ->
  Contract.offers (json resp) = (before ++ raw :: after)%list ->
  Forall valid_offer before ->
  is_Some (own_order_of raw) ->
  ~ 0 <= Contract.tradeType raw <= 3 ->
  exists c',
    Contract._update_my_orders resp c = (c', inl (KeyError (Contract.tradeType raw))) /\
    Contract.my_no_bids c' = inr (orders_of 0 before) /\
    Contract.my_yes_bids c' = inr (orders_of 1 before) /\
    Contract.my_no_asks c' = inr (orders_of 2 before) /\
    Contract.my_yes_asks c' = inr (orders_of 3 before).
Proof.
  intros Hok Hoffers Hvalid [order Horder] Htype.
  rewrite (_update_my_orders_run resp c Hok), Hoffers, offers_loop_app.
  destruct (offers_loop_ok before
              ltac:(eapply Forall_impl; [exact Hvalid | intros raw' [_ Hp]; exact Hp])
              (Contract.set_my_orders Contract.empty_buckets c)
              (valid_offers_keys _ c Hvalid)) as (c' & Hrun & _ & Hlookup).
  rewrite Hrun. cbn [Contract.offers_loop]. unfold py_strptime.
  unfold own_order_of in Horder.
  destruct (strptime (Contract.dateCreated raw) "%Y-%m-%dT%H:%M:%S.%f")
    as [date |]; [| discriminate].
  rewrite bind_lift, bind_eq. unfold Contract.append_order, Contract.getitem at 1.
  assert (Hbuckets : forall k, Contract._my_orders c' !! k
                      = if (0 <=? k) && (k <=? 3) then Some (orders_of k before) else None).
  { intros k. rewrite Hlookup. cbn [Contract._my_orders Contract.set_my_orders].
    rewrite empty_buckets_lookup. destruct ((0 <=? k) && (k <=? 3)); reflexivity. }
  rewrite (Hbuckets (Contract.tradeType raw)).
  destruct ((0 <=? Contract.tradeType raw) && (Contract.tradeType raw <=? 3)) eqn:E.
  { apply andb_true_iff in E as [E1 E2]. apply Z.leb_le in E1. apply Z.leb_le in E2. lia. }
  exists c'. split; [reflexivity |].
  unfold Contract.my_no_bids, Contract.my_yes_bids, Contract.my_no_asks,
    Contract.my_yes_asks.
  repeat split; apply getitem_Some; rewrite Hbuckets; reflexivity.
Qed.

Lemma have_open_orders_iff (c : Contract.t) :
  Contract.have_open_orders c = true
  <-> exists k bucket, Contract._my_orders c !! k = Some bucket /\ bucket <> [].
Proof.
  unfold Contract.have_open_orders. rewrite existsb_exists. split.
  - intros (bucket & Hin & Hne). apply in_map_iff in Hin as ([k b] & <- & Hin).
    apply list_elem_of_In, elem_of_map_to_list in Hin.
    exists k, b. split; [exact Hin |]. cbn in Hne. destruct b; [discriminate | discriminate].
  - intros (k & bucket & Hk & Hne). exists bucket. split.
    + apply in_map_iff. exists (k, bucket). split; [reflexivity |].
      apply list_elem_of_In, elem_of_map_to_list, Hk.
    + destruct bucket; [congruence | reflexivity].
Qed.

(** X12: after an own-orders update of valid offers, have_open_orders is
    true exactly when the payload listed at least one offer. *)
Theorem have_open_orders_after_update (resp : Response Contract.offers_json) c :
  ~ failed resp ->
  Forall valid_offer (Contract.offers (json resp)) ->
  Contract.have_open_orders (fst (Contract._update_my_orders resp c)) = true
  <-> Contract.offers (json resp) <> [].
Proof.
  intros Hok Hvalid.
  destruct (_update_my_orders_ok resp c Hok Hvalid) as (c' & Hrun & Hlookup).
  rewrite Hrun. cbn [fst]. rewrite have_open_orders_iff. split.
  - intros (k & bucket & Hk & Hne) Hnil. rewrite Hlookup, Hnil in Hk.
    destruct ((0 <=? k) && (k <=? 3)); [| discriminate].
    injection Hk as <-. now apply Hne.
  - intros Hne. destruct (Contract.offers (json resp)) as [| raw rest] eqn:Hoffers;
      [congruence |].
    apply Forall_cons in Hvalid as [[[Hlo Hhi] [order Horder]] _].
    exists (Contract.tradeType raw), (order :: orders_of (Contract.tradeType raw) rest).
    split; [| discriminate].
    rewrite Hlookup. apply Z.leb_le in Hlo. apply Z.leb_le in Hhi. rewrite Hlo, Hhi.
    cbn. now rewrite Horder, Z.eqb_refl.
Qed.

End own_orders.

Lemma sample_offer_parses (id type : Z) :
  is_Some (@own_order_of (fixed_zone_runtime 0) (Samples.offer id type)).
Proof.
  unfold own_order_of.
  cbn [Samples.offer Contract.dateCreated strptime fixed_zone_runtime].
  replace (Strptime.strptime "2019-03-01T10:00:00.5" "%Y-%m-%dT%H:%M:%S.%f")
    with (Some (mkDatetime 2019 3 1 10 0 0 500000)) by (vm_compute; reflexivity).
  eauto.
Defined.

Lemma sample_offer_valid (id type : Z) :
  0 <= type <= 3 -> @valid_offer (fixed_zone_runtime 0) (Samples.offer id type).
Proof. intros Htype. split; [exact Htype | apply sample_offer_parses]. Defined.

Lemma own_orders_by_trade_type_witness :
  let R := fixed_zone_runtime 0 in
  exists c',
    Contract._update_my_orders Samples.offers_payload Examples.flat
      = (c', inr Samples.offers_payload) /\
    Contract.my_no_bids c' = inr (orders_of 0 (Contract.offers (json Samples.offers_payload))) /\
    Contract.my_yes_bids c' = inr (orders_of 1 (Contract.offers (json Samples.offers_payload))) /\
    Contract.my_no_asks c' = inr (orders_of 2 (Contract.offers (json Samples.offers_payload))) /\
    Contract.my_yes_asks c' = inr (orders_of 3 (Contract.offers (json Samples.offers_payload))).
Proof.
  intros R. apply (own_orders_by_trade_type Samples.offers_payload Examples.flat).
  - unfold failed. simpl. lia.
  - repeat constructor; apply sample_offer_valid; lia.
Defined.

(** On the sample: offers 1 and 3 are the yes bids, offer 2 the no bid. *)
Example own_orders_sample :
  let R := fixed_zone_runtime 0 in
  let c' := fst (Contract._update_my_orders Samples.offers_payload Examples.flat) in
  (Contract.order_id <$> orders_of 1 (Contract.offers (json Samples.offers_payload))) = [1; 3] /\
  (Contract.order_id <$> orders_of 0 (Contract.offers (json Samples.offers_payload))) = [2] /\
  Contract.have_open_orders c' = true.
Proof. vm_compute. repeat split. Qed.

Lemma own_orders_unknown_trade_type_witness :
  let R := fixed_zone_runtime 0 in
  exists c',
    Contract._update_my_orders Samples.odd_offers_payload Examples.flat
      = (c', inl (KeyError 7)) /\
    Contract.my_no_bids c' = inr (orders_of 0 [Samples.offer 1 1]) /\
    Contract.my_yes_bids c' = inr (orders_of 1 [Samples.offer 1 1]) /\
    Contract.my_no_asks c' = inr (orders_of 2 [Samples.offer 1 1]) /\
    Contract.my_yes_asks c' = inr (orders_of 3 [Samples.offer 1 1]).
Proof.
  intros R.
  apply (own_orders_unknown_trade_type Samples.odd_offers_payload Examples.flat
           [Samples.offer 1 1] (Samples.offer 2 7) [Samples.offer 3 0]).
  - unfold failed. simpl. lia.
  - reflexivity.
  - repeat constructor; apply sample_offer_valid; lia.
  - apply sample_offer_parses.
  - cbn. lia.
Defined.

Lemma have_open_orders_after_update_witness :
  let R := fixed_zone_runtime 0 in
  Contract.have_open_orders
    (fst (Contract._update_my_orders Samples.offers_payload Examples.flat)) = true
  <-> Contract.offers (json Samples.offers_payload) <> [].
Proof.
  intros R. apply (have_open_orders_after_update Samples.offers_payload Examples.flat).
  - unfold failed. simpl. lia.
  - repeat constructor; apply sample_offer_valid; lia.
Defined.

(** ** contract.py: share details, failed responses and update_all *)

Section contract_updates.
Context `{Runtime}.

(** A detail holds its record and the date parsed from it. *)
Definition detail_of (share : Contract.share_json) (d : Contract.share_detail) : Prop :=
  Contract.detail_share d = share /\
  strptime (Contract.dateExecuted share) (Contract.str_format share)
    = Some (Contract.detail_dateExecuted d).

Lemma shares_loop_details shares :
  Forall parses shares ->
  forall c, exists c' details,
    Contract.shares_loop shares c = (c', inr details) /\
    Forall2 detail_of shares details /\
    Contract._order_book c' = Contract._order_book c /\
    Contract._my_orders c' = Contract._my_orders c /\
    Contract._contract_name c' = Contract._contract_name c.
Proof.
  induction 1 as [| share rest [date Hdate] _ IH]; intros c.
  - exists c, []. cbn. repeat split. constructor.
  - cbn [Contract.shares_loop]. unfold py_strptime. rewrite Hdate.
    rewrite bind_lift, !bind_modify, bind_eq.
    match goal with
    | |- context [Contract.shares_loop rest ?c1] =>
        destruct (IH c1) as (c' & details & Hrun & Hdetails & Hbook & Horders & Hname)
    end.
    exists c', (Contract.mkShareDetail share date :: details).
    rewrite Hrun. cbn in Hbook, Horders, Hname.
    repeat split; try assumption.
    constructor; [split; [reflexivity | exact Hdate] | exact Hdetails].
Qed.

(** X13: after a shares update that returns, share_details lists the
    records of the payload in order, each with its dateExecuted parsed, the
    contract name is the payload's, and the order book and the own orders
    are the ones from before. *)
Theorem share_details_after_update
    (resp : Response Contract.shares_json) (c c' : Contract.t) r :
  Contract._update_shares resp c = (c', inr r) ->
  Forall2 detail_of (Contract.shares (json resp)) (Contract.share_details c') /\
  Contract.contract_name c' = Contract.contractName (json resp) /\
  Contract._order_book c' = Contract._order_book c /\
  Contract._my_orders c' = Contract._my_orders c.
Proof.
  intros Hrun. destruct (_update_shares_returns _ _ _ _ Hrun) as [Hok Hdates].
  revert Hrun. unfold Contract._update_shares.
  rewrite bind_lift, (raise_for_status_ok resp Hok), !bind_modify, bind_eq.
  match goal with
  | |- context [Contract.shares_loop _ ?c1] =>
      destruct (shares_loop_details _ Hdates c1)
        as (c1' & details & Hloop & Hdetails & Hbook & Horders & Hname)
  end.
  rewrite Hloop, bind_modify. unfold ret. intros [= <- _].
  cbn in *. unfold Contract.contract_name. cbn. auto.
Qed.

(** A shares update that returns leaves the book and the own orders. *)
Lemma share_details_frame (resp : Response Contract.shares_json) (c c' : Contract.t) r :
  Contract._update_shares resp c = (c', inr r) ->
  Contract._order_book c' = Contract._order_book c /\
  Contract._my_orders c' = Contract._my_orders c.
Proof.
  intros Hrun. destruct (_update_shares_returns _ _ _ _ Hrun) as [Hok Hdates].
  revert Hrun. unfold Contract._update_shares.
  rewrite bind_lift, (raise_for_status_ok resp Hok), !bind_modify, bind_eq.
  match goal with
  | |- context [Contract.shares_loop _ ?c1] =>
      destruct (shares_loop_details _ Hdates c1)
        as (c1' & details & Hloop & _ & Hbook & Horders & _)
  end.
  rewrite Hloop, bind_modify. unfold ret. intros [= <- _].
  cbn in *. auto.
Qed.

Lemma _update_shares_failed (resp : Response Contract.shares_json) c :
  failed resp ->
  Contract._update_shares resp c = (c, inl (HTTPError (status_code resp))).
Proof.
  intros Hf. unfold Contract._update_shares.
  now rewrite bind_lift, (raise_for_status_failed resp Hf).
Qed.

Lemma _update_my_orders_failed (resp : Response Contract.offers_json) c :
  failed resp ->
  Contract._update_my_orders resp c = (c, inl (HTTPError (status_code resp))).
Proof.
  intros Hf. unfold Contract._update_my_orders.
  now rewrite bind_lift, (raise_for_status_failed resp Hf).
Qed.

(** X14: each of the three sub-updates of a Contract looks at the status
    of its response first: on a 4xx or 5xx it raises HTTPError with that
    status and has not changed the object. *)
Theorem contract_updates_check_status (c : Contract.t) :
  (forall resp : Response Contract.orderbook_json, failed resp ->
     Contract._update_order_book resp c = (c, inl (HTTPError (status_code resp)))) /\
  (forall resp : Response Contract.shares_json, failed resp ->
     Contract._update_shares resp c = (c, inl (HTTPError (status_code resp)))) /\
  (forall resp : Response Contract.offers_json, failed resp ->
     Contract._update_my_orders resp c = (c, inl (HTTPError (status_code resp)))).
Proof.
  split; [| split]; intros resp Hf.
  - apply _update_order_book_failed, Hf.
  - apply _update_shares_failed, Hf.
  - apply _update_my_orders_failed, Hf.
Qed.

Lemma _update_order_book_only_book (resp : Response Contract.orderbook_json) c :
  fst (Contract._update_order_book resp c)
  = Contract.set_order_book
      (Contract._order_book (fst (Contract._update_order_book resp c))) c.
Proof.
  unfold Contract._update_order_book. rewrite bind_lift.
  destruct (raise_for_status resp) as [e | []]; [now destruct c |].
  rewrite !bind_modify.
  unfold Contract.sort_side, bind.
  repeat match goal with
         | |- context [Contract.getitem ?d ?k] => destruct (Contract.getitem d k)
         end; reflexivity.
Qed.

(** X15: Contract.update_all applies the three responses in order and
    stops at the first that fails.  With a good order-book response and a
    failed shares response it raises the HTTPError of the shares response;
    the order book is the new one, while the position (my_prediction,
    shares_owned, investment), the share details and the own orders are the
    old ones, and the own-orders response is not looked at. *)
Theorem contract_update_all_stops
    (r0 : Response Contract.orderbook_json) (r1 : Response Contract.shares_json)
    (r2 : Response Contract.offers_json) (c : Contract.t) :
  ~ failed r0 -> failed r1 ->
  exists c1,
    Contract._update_order_book r0 c = (c1, inr r0) /\
    Contract.update_all (r0, r1, r2) c = (c1, inl (HTTPError (status_code r1))) /\
    Contract.my_prediction c1 = Contract.my_prediction c /\
    Contract.shares_owned c1 = Contract.shares_owned c /\
    Contract.investment c1 = Contract.investment c /\
    Contract.share_details c1 = Contract.share_details c /\
    Contract._my_orders c1 = Contract._my_orders c.
Proof.
  intros Hok Hf.
  destruct (_update_order_book_ok r0 c Hok) as (c1 & Hrun & _ & _).
  exists c1. split; [exact Hrun |].
  unfold Contract.update_all. rewrite bind_eq, Hrun, bind_eq.
  rewrite (_update_shares_failed r1 c1 Hf). split; [reflexivity |].
  pose proof (_update_order_book_only_book r0 c) as Hframe.
  rewrite Hrun in Hframe. cbn [fst] in Hframe. rewrite Hframe.
  repeat split.
Qed.

End contract_updates.

Lemma share_details_after_update_witness :
  let R := fixed_zone_runtime 0 in
  let c' := fst (Contract._update_shares Examples.shares_payload Examples.flat) in
  Forall2 detail_of (Contract.shares (json Examples.shares_payload))
          (Contract.share_details c') /\
  Contract.contract_name c' = Contract.contractName (json Examples.shares_payload) /\
  Contract._order_book c' = Contract._order_book Examples.flat /\
  Contract._my_orders c' = Contract._my_orders Examples.flat.
Proof.
  intros R c'.
  apply (share_details_after_update Examples.shares_payload Examples.flat c'
           Examples.shares_payload).
  apply pair_of_snd. vm_compute. reflexivity.
Defined.

Lemma contract_updates_check_status_witness :
  let R := fixed_zone_runtime 0 in
  Contract._update_shares (mkResponse 503 (json Examples.shares_payload)) Examples.held_yes
  = (Examples.held_yes, inl (HTTPError 503)).
Proof.
  intros R.
  apply (proj1 (proj2 (contract_updates_check_status Examples.held_yes))).
  unfold failed. simpl. lia.
Defined.

Lemma contract_update_all_stops_witness :
  let R := fixed_zone_runtime 0 in
  let r1 := mkResponse 500 (json Examples.shares_payload) in
  exists c1,
    Contract._update_order_book Examples.book_payload Examples.held_yes
      = (c1, inr Examples.book_payload) /\
    Contract.update_all (Examples.book_payload, r1, Samples.offers_payload) Examples.held_yes
      = (c1, inl (HTTPError (status_code r1))) /\
    Contract.my_prediction c1 = Contract.my_prediction Examples.held_yes /\
    Contract.shares_owned c1 = Contract.shares_owned Examples.held_yes /\
    Contract.investment c1 = Contract.investment Examples.held_yes /\
    Contract.share_details c1 = Contract.share_details Examples.held_yes /\
    Contract._my_orders c1 = Contract._my_orders Examples.held_yes.
Proof.
  intros R r1.
  apply (contract_update_all_stops Examples.book_payload r1 Samples.offers_payload
           Examples.held_yes).
  - unfold failed. simpl. lia.
  - unfold failed. simpl. lia.
Defined.

(** ** market.py: an update that raises half way, and construction *)

Section market_more.
Context `{Runtime}.

(** X16: an info update that raises at the end date has already written
    the first two attributes.  When the response is good and the end-date
    string is not "N/A" but its first 19 characters do not parse or its zone
    is not "ET", the update raises, market_name and market_type hold the new
    values of the payload, and every other attribute is as before. *)
Theorem update_info_partial (resp : Response Market.info_json) (m : Market.t) :
  ~ failed resp ->
  Market.dateEndString (json resp) <> "N/A" ->
  strptime (str_to 19 (Market.dateEndString (json resp))) "%m/%d/%Y %I:%M %p" = None \/
  strip " ()" (str_from 19 (Market.dateEndString (json resp))) <> "ET" ->
  (exists e, snd (Market._update_info resp m) = inl e) /\
  fst (Market._update_info resp m)
  = <["_market_type" := Market.marketType (json resp)]>
      (<["_market_name" := Market.marketName (json resp)]> m).
Proof.
  intros Hok Hna Hbad. pose proof (raise_for_status_ok resp Hok) as Hstatus.
  apply String.eqb_neq in Hna.
  unfold Market._update_info.
  rewrite bind_lift, Hstatus, !bind_setattr, bind_eq, Hna, bind_lift.
  unfold py_strptime.
  destruct (strptime (str_to 19 (Market.dateEndString (json resp))) "%m/%d/%Y %I:%M %p")
    as [t |] eqn:Hparse.
  - destruct Hbad as [Hbad | Hzone]; [discriminate |].
    apply String.eqb_neq in Hzone. rewrite Hzone. cbn. eauto.
  - cbn. eauto.
Qed.

(** The attributes of a market after an info update that returned. *)
Lemma _update_info_sets (resp : Response Market.info_json) (m : Market.t) name :
  name ∈ Market.info_attributes ->
  match snd (Market._update_info resp m) with
  | inr _ => is_Some (fst (Market._update_info resp m) !! name)
  | inl _ => True
  end.
Proof.
  unfold Market.info_attributes. intros Hname.
  run_update_info; try exact I;
    repeat (apply elem_of_cons in Hname as [-> | Hname];
            [repeat (rewrite lookup_insert_ne by discriminate);
             rewrite lookup_insert_eq; eauto |]);
    inversion Hname.
Qed.

Lemma _update_info_name (resp : Response Market.info_json) (m : Market.t) :
  match snd (Market._update_info resp m) with
  | inr _ => fst (Market._update_info resp m) !! "_market_name"
             = Some (Market.marketName (json resp))
  | inl _ => True
  end.
Proof.
  run_update_info; try exact I;
    repeat (rewrite lookup_insert_ne by discriminate); apply lookup_insert_eq.
Qed.

(** X17: a Market that the constructor returns has all its properties
    defined: the nineteen attributes of the market info, the contract ids and
    the market id are set; market_id is the argument, market_name the
    payload's name and contract_ids the payload's ids in order.  A market id
    that is not an int is refused with TypeError, for any responses. *)
Theorem market_constructed (market_id : pyval)
    (r0 : Response Market.info_json) (r1 : Response (list Market.contract_json)) :
  (forall m, Market.__init__ market_id (r0, r1) = Market.Constructed m ->
     (forall name,
         name ∈ "_market_id" :: "_contract_ids" :: Market.info_attributes ->
         is_Some (m !! name)) /\
     (exists id, market_id = PyInt id /\ Market.market_id m = Some (Market.VInt id)) /\
     Market.market_name m = Some (Market.marketName (json r0)) /\
     Market.contract_ids m = Some (Market.VList (map Market.contractId (json r1)))) /\
  ((forall id, market_id <> PyInt id) ->
   Market.__init__ market_id (r0, r1) = Market.TypeError_market_id).
Proof.
  split.
  - intros m Hinit. unfold Market.__init__ in Hinit.
    destruct market_id as [id | | |]; try discriminate.
    rewrite update_all_eq in Hinit. cbn [fst snd] in Hinit.
    pose proof (_update_info_sets r0 (<["_market_id" := Market.VInt id]> ∅)) as Hsets.
    pose proof (_update_info_name r0 (<["_market_id" := Market.VInt id]> ∅)) as Hname.
    pose proof (_update_info_frame r0 (<["_market_id" := Market.VInt id]> ∅) "_market_id")
      as Hid.
    destruct (Market._update_info r0 (<["_market_id" := Market.VInt id]> ∅))
      as [m1 [e | x]]; [discriminate |].
    cbn [fst snd] in Hsets, Hname, Hid.
    unfold Market._update_contracts in Hinit. rewrite bind_lift in Hinit.
    destruct (raise_for_status r1) as [e | []]; [discriminate |].
    rewrite bind_setattr in Hinit. unfold ret in Hinit. injection Hinit as <-.
    assert (Hid' : m1 !! "_market_id" = Some (Market.VInt id)).
    { rewrite Hid; [apply lookup_insert_eq |].
      unfold Market.info_attributes. intros Hin.
      repeat (apply elem_of_cons in Hin as [Hin | Hin]; [discriminate |]).
      inversion Hin. }
    split; [| split; [| split]].
    + intros name Hin.
      apply elem_of_cons in Hin as [-> | Hin].
      { rewrite lookup_insert_ne by discriminate. rewrite Hid'. eauto. }
      apply elem_of_cons in Hin as [-> | Hin].
      { rewrite lookup_insert_eq. eauto. }
      destruct (decide (name = "_contract_ids")) as [-> | Hne].
      * rewrite lookup_insert_eq. eauto.
      * rewrite lookup_insert_ne by congruence. apply Hsets, Hin.
    + exists id. split; [reflexivity |]. unfold Market.market_id.
      rewrite lookup_insert_ne by discriminate. exact Hid'.
    + unfold Market.market_name. rewrite lookup_insert_ne by discriminate. exact Hname.
    + unfold Market.contract_ids. apply lookup_insert_eq.
  - intros Hnot. unfold Market.__init__.
    destruct market_id as [id | | |]; try reflexivity. now destruct (Hnot id).
Qed.

End market_more.

Lemma update_info_partial_witness :
  let R := fixed_zone_runtime 0 in
  let resp := Examples.info_payload "03/01/2024 09:00 PM (PT)" in
  (exists e, snd (Market._update_info resp Examples.old_market) = inl e) /\
  fst (Market._update_info resp Examples.old_market)
  = <["_market_type" := Market.marketType (json resp)]>
      (<["_market_name" := Market.marketName (json resp)]> Examples.old_market).
Proof.
  intros R resp. apply (update_info_partial resp Examples.old_market).
  - unfold failed. simpl. lia.
  - discriminate.
  - right. vm_compute. discriminate.
Defined.

Lemma market_constructed_witness :
  let R := fixed_zone_runtime 0 in
  let r0 := Examples.info_payload "N/A" in
  let r1 := Examples.contracts_payload 200 in
  exists m,
    Market.__init__ (PyInt 5) (r0, r1) = Market.Constructed m /\
    (forall name,
        name ∈ "_market_id" :: "_contract_ids" :: Market.info_attributes ->
        is_Some (m !! name)) /\
    (exists id, PyInt 5 = PyInt id /\ Market.market_id m = Some (Market.VInt id)) /\
    Market.market_name m = Some (Market.marketName (json r0)) /\
    Market.contract_ids m = Some (Market.VList (map Market.contractId (json r1))).
Proof.
  intros R r0 r1.
  destruct (Market.__init__ (PyInt 5) (r0, r1)) as [| e | m] eqn:Hinit;
    [vm_compute in Hinit; discriminate | vm_compute in Hinit; discriminate |].
  exists m. split; [reflexivity |].
  exact (proj1 (market_constructed (PyInt 5) r0 r1) m Hinit).
Defined.

(** ** account.py: positions and update_all *)

Lemma contracts_loop_run (cs : list Account.market_contract_json) :
  forall a,
    Account.contracts_loop cs a
    = (Account.set_my_contract_ids
         (Account._my_contract_ids a ++ map Account.contractId cs)%list a, inr tt).
Proof.
  induction cs as [| c rest IH]; intros a; cbn [Account.contracts_loop].
  - unfold ret. cbn. rewrite app_nil_r. now destruct a.
  - rewrite bind_modify, IH. cbn. now rewrite <- app_assoc.
Qed.

(** The contract ids of some markets, market after market. *)
Definition contract_ids_of (mkts : list Account.market_json) : list Z :=
  concat (map (fun mkt => map Account.contractId (Account.marketContracts mkt)) mkts).

Lemma markets_loop_run (mkts : list Account.market_json) :
  forall a,
    Account.markets_loop mkts a
    = (Account.set_my_contract_ids
         (Account._my_contract_ids a ++ contract_ids_of mkts)%list
         (Account.set_my_market_ids
            (Account._my_market_ids a ++ map Account.marketId mkts)%list a), inr tt).
Proof.
  induction mkts as [| mkt rest IH]; intros a; cbn [Account.markets_loop].
  - unfold ret, contract_ids_of. cbn. rewrite !app_nil_r. now destruct a.
  - rewrite bind_modify, bind_eq, contracts_loop_run, IH.
    unfold contract_ids_of. cbn. now rewrite <- !app_assoc.
Qed.

(** X18: after a positions update whose response is good, my_market_ids is
    the list of the payload's market ids in order and my_contract_ids the
    contract ids of those markets, market after market; both are empty when
    the payload's "markets" is null.  The suspension flag and message are
    the payload's and the balances are untouched. *)
Theorem account_positions (resp : Response Account.profile_json) (a : Account.t) :
  ~ failed resp ->
  exists a',
    Account._update_contracts resp a = (a', inr resp) /\
    Account.my_market_ids a'
      = map Account.marketId (default [] (Account.markets (json resp))) /\
    Account.my_contract_ids a'
      = contract_ids_of (default [] (Account.markets (json resp))) /\
    Account.is_trading_suspended a' = Account.isTradingSuspended (json resp) /\
    Account.is_trading_suspended_message a'
      = Account.isTradingSuspendedMessage (json resp) /\
    Account.cash_balance a' = Account.cash_balance a /\
    Account.investment_balance a' = Account.investment_balance a.
Proof.
  intros Hok. unfold Account._update_contracts.
  rewrite bind_lift, (raise_for_status_ok resp Hok), !bind_modify, bind_eq.
  destruct (Account.markets (json resp)) as [mkts |].
  - rewrite markets_loop_run. eexists. split; [reflexivity |]. cbn. auto 10.
  - eexists. split; [reflexivity |]. cbn. auto 10.
Qed.

Lemma account_update_balances_failed (resp : Response Account.balance_json) a :
  failed resp ->
  Account._update_balances resp a = (a, inl (HTTPError (status_code resp))).
Proof.
  intros Hf. unfold Account._update_balances.
  now rewrite bind_lift, (raise_for_status_failed resp Hf).
Qed.

Lemma account_update_contracts_failed (resp : Response Account.profile_json) a :
  failed resp ->
  Account._update_contracts resp a = (a, inl (HTTPError (status_code resp))).
Proof.
  intros Hf. unfold Account._update_contracts.
  now rewrite bind_lift, (raise_for_status_failed resp Hf).
Qed.

(** X19: Account.update_all applies the balances and then the positions.
    A failed balances response raises with the account untouched.  A good
    balances response followed by a failed positions response raises the
    HTTPError of the second, with the two balances already replaced by the
    payload's and the position lists and the suspension flag still the old
    ones. *)
Theorem account_update_all_stops
    (r0 : Response Account.balance_json) (r1 : Response Account.profile_json)
    (a : Account.t) :
  (failed r0 ->
   Account.update_all (r0, r1) a = (a, inl (HTTPError (status_code r0)))) /\
  (~ failed r0 -> failed r1 ->
   exists a',
     Account.update_all (r0, r1) a = (a', inl (HTTPError (status_code r1))) /\
     Account.cash_balance a' = Account.accountBalanceDecimal (json r0) /\
     Account.investment_balance a' = Account.portfolioBalanceDecimal (json r0) /\
     Account.my_market_ids a' = Account.my_market_ids a /\
     Account.my_contract_ids a' = Account.my_contract_ids a /\
     Account.is_trading_suspended a' = Account.is_trading_suspended a).
Proof.
  unfold Account.update_all. cbn [fst snd]. split.
  - intros Hf. now rewrite bind_eq, (account_update_balances_failed r0 a Hf).
  - intros Hok Hf. rewrite bind_eq. unfold Account._update_balances at 1.
    rewrite bind_lift, (raise_for_status_ok r0 Hok), !bind_modify. unfold ret at 1.
    rewrite bind_eq, (account_update_contracts_failed r1 _ Hf).
    eexists. split; [reflexivity |]. cbn. auto 10.
Qed.

Lemma account_positions_witness :
  exists a',
    Account._update_contracts (Samples.profile_payload 200) Samples.account
      = (a', inr (Samples.profile_payload 200)) /\
    Account.my_market_ids a'
      = map Account.marketId
          (default [] (Account.markets (json (Samples.profile_payload 200)))) /\
    Account.my_contract_ids a'
      = contract_ids_of (default [] (Account.markets (json (Samples.profile_payload 200)))) /\
    Account.is_trading_suspended a'
      = Account.isTradingSuspended (json (Samples.profile_payload 200)) /\
    Account.is_trading_suspended_message a'
      = Account.isTradingSuspendedMessage (json (Samples.profile_payload 200)) /\
    Account.cash_balance a' = Account.cash_balance Samples.account /\
    Account.investment_balance a' = Account.investment_balance Samples.account.
Proof.
  apply (account_positions (Samples.profile_payload 200) Samples.account).
  unfold failed. simpl. lia.
Defined.

(** On the sample: markets 5 and 6, contracts 51, 52 and 61. *)
Example account_positions_sample :
  let a' := fst (Account._update_contracts (Samples.profile_payload 200) Samples.account) in
  Account.my_market_ids a' = [5; 6] /\ Account.my_contract_ids a' = [51; 52; 61].
Proof. split; reflexivity. Qed.

Lemma account_update_all_stops_witness :
  exists a',
    Account.update_all (Samples.balance_payload, Samples.profile_payload 502) Samples.account
      = (a', inl (HTTPError (status_code (Samples.profile_payload 502)))) /\
    Account.cash_balance a' = Account.accountBalanceDecimal (json Samples.balance_payload) /\
    Account.investment_balance a'
      = Account.portfolioBalanceDecimal (json Samples.balance_payload) /\
    Account.my_market_ids a' = Account.my_market_ids Samples.account /\
    Account.my_contract_ids a' = Account.my_contract_ids Samples.account /\
    Account.is_trading_suspended a' = Account.is_trading_suspended Samples.account.
Proof.
  apply (proj2 (account_update_all_stops Samples.balance_payload
                  (Samples.profile_payload 502) Samples.account)).
  - unfold failed. simpl. lia.
  - unfold failed. simpl. lia.
Defined.

(** ** contract.py: a date that does not parse, and a full refresh *)

Section contract_refresh.
Context `{Runtime}.

Lemma shares_loop_app (l1 l2 : list Contract.share_json) :
  forall c,
    Contract.shares_loop (l1 ++ l2) c
    = match Contract.shares_loop l1 c with
      | (c1, inl e) => (c1, inl e)
      | (c1, inr details1) =>
          match Contract.shares_loop l2 c1 with
          | (c2, inl e) => (c2, inl e)
          | (c2, inr details2) => (c2, inr (details1 ++ details2)%list)
          end
      end.
Proof.
  induction l1 as [| share rest IH]; intros c.
  - cbn. destruct (Contract.shares_loop l2 c) as [c2 [e | d]]; reflexivity.
  - cbn [app Contract.shares_loop]. rewrite !bind_lift.
    destruct (py_strptime (Contract.dateExecuted share) (Contract.str_format share))
      as [e | date]; [reflexivity |].
    rewrite !bind_modify, !bind_eq, IH.
    destruct (Contract.shares_loop rest _) as [c1 [e | d1]]; [reflexivity |].
    unfold ret. cbn beta iota.
    destruct (Contract.shares_loop l2 c1) as [c2 [e | d2]]; reflexivity.
Qed.

Lemma shares_loop_keeps_details (shares : list Contract.share_json) :
  forall c c' details,
    Contract.shares_loop shares c = (c', inr details) ->
    Contract.share_details c' = Contract.share_details c.
Proof.
  induction shares as [| share rest IH]; intros c c' details Hrun.
  - cbn in Hrun. now injection Hrun as <- _.
  - cbn [Contract.shares_loop] in Hrun. rewrite bind_lift in Hrun.
    destruct (py_strptime _ _) as [e | date]; [discriminate |].
    rewrite !bind_modify, bind_eq in Hrun.
    destruct (Contract.shares_loop rest _) as [c2 [e | d]] eqn:Hrest; [discriminate |].
    injection Hrun as <- _. now rewrite (IH _ _ _ Hrest).
Qed.

(** X20: a share record whose dateExecuted does not parse makes the shares
    update raise ValueError in the middle of its loop: contract_name and
    my_prediction are already the payload's, shares_owned and investment
    hold the sums over the records before the bad one only, and
    share_details is still the old list. *)
Theorem shares_update_bad_date
    (resp : Response Contract.shares_json) (c : Contract.t) before bad after :
  ~ failed resp ->
  Contract.shares (json resp) = (before ++ bad :: after)%list ->
  Forall parses before ->
  strptime (Contract.dateExecuted bad) (Contract.str_format bad) = None ->
  exists c',
    Contract._update_shares resp c = (c', inl ValueError_strptime) /\
    Contract.contract_name c' = Contract.contractName (json resp) /\
    Contract.my_prediction c'
      = Some (Contract.predictionType (hd bad before)) /\
    Contract.shares_owned c' = Spec.total_shares before /\
    (Contract.investment c' == Spec.total_cost before)%Q /\
    Contract.share_details c' = Contract.share_details c.
Proof.
  intros Hok Hshares Hbefore Hbad. unfold Contract._update_shares.
  rewrite bind_lift, (raise_for_status_ok resp Hok), !bind_modify, bind_eq.
  rewrite Hshares, shares_loop_app.
  match goal with
  | |- context [Contract.shares_loop before ?c1] =>
      destruct (shares_loop_ok before Hbefore c1)
        as (c1' & details & Hrun & Hso & Hinv & Hpred & Hname);
      destruct (shares_loop_details before Hbefore c1)
        as (c1'' & details' & Hrun' & _ & _ & _ & _)
  end.
  rewrite Hrun. cbn [Contract.shares_loop]. unfold py_strptime. rewrite Hbad.
  rewrite bind_lift. exists c1'. split; [reflexivity |].
  assert (Hdetails : Contract.share_details c1' = Contract.share_details c)
    by (rewrite (shares_loop_keeps_details _ _ _ _ Hrun); reflexivity).
  cbn in Hso, Hinv, Hpred, Hname.
  unfold Contract.contract_name, Contract.my_prediction, Contract.shares_owned,
    Contract.investment.
  rewrite Hname, Hpred, Hso, Hdetails. split; [reflexivity |]. split.
  - destruct before; reflexivity.
  - split; [lia |]. split; [rewrite Hinv; ring | reflexivity].
Qed.

(** X21: a refresh of a Contract with three good responses applies all of
    them: afterwards the order-book views come from the first response,
    the position from the second and the own orders from the third, and
    update_all returns the three responses. *)
Theorem contract_update_all_applies
    (r0 : Response Contract.orderbook_json) (r1 : Response Contract.shares_json)
    (r2 : Response Contract.offers_json) (c : Contract.t) :
  ~ failed r0 -> ~ failed r1 -> ~ failed r2 ->
  Forall parses (Contract.shares (json r1)) ->
  Forall valid_offer (Contract.offers (json r2)) ->
  exists c',
    Contract.update_all (r0, r1, r2) c = (c', inr (r0, r1, r2)) /\
    Contract.yes_asks c'
      = inr (list_sort (Contract.tuples (Contract.yesOrders (json r0)))) /\
    Contract.yes_bids c'
      = inr (list_sort (Contract.tuples (Contract.noOrders (json r0)))) /\
    Contract.shares_owned c' = Spec.total_shares (Contract.shares (json r1)) /\
    (Contract.investment c' == Spec.total_cost (Contract.shares (json r1)))%Q /\
    Contract.my_yes_bids c' = inr (orders_of 1 (Contract.offers (json r2))) /\
    Contract.my_no_bids c' = inr (orders_of 0 (Contract.offers (json r2))).
Proof.
  intros Hok0 Hok1 Hok2 Hdates Hvalid.
  destruct (_update_order_book_ok r0 c Hok0) as (c1 & Hrun0 & Hyes & Hno).
  destruct (_update_shares_ok r1 c1 Hok1 Hdates) as (c2 & Hrun1 & _ & Hso & Hinv).
  pose proof (share_details_frame r1 c1 c2 r1 Hrun1) as [Hbook _].
  destruct (_update_my_orders_ok r2 c2 Hok2 Hvalid) as (c3 & Hrun2 & Hlookup).
  pose proof (_update_my_orders_frame r2 c2 Hok2 Hvalid) as Hframe.
  rewrite Hrun2 in Hframe. cbn [fst] in Hframe.
  exists c3. unfold Contract.update_all.
  rewrite bind_eq, Hrun0, bind_eq, Hrun1, bind_eq, Hrun2. split; [reflexivity |].
  assert (Hb3 : Contract._order_book c3 = Contract._order_book c1)
    by (rewrite Hframe; cbn; exact Hbook).
  assert (Hs3 : Contract._shares_owned c3 = Contract._shares_owned c2)
    by (rewrite Hframe; reflexivity).
  assert (Hi3 : Contract._investment c3 = Contract._investment c2)
    by (rewrite Hframe; reflexivity).
  unfold Contract.yes_asks, Contract.yes_bids, Contract.my_yes_bids, Contract.my_no_bids,
    Contract.shares_owned, Contract.investment in *.
  rewrite Hb3, Hs3, Hi3, (getitem_Some _ _ _ Hyes), (getitem_Some _ _ _ Hno).
  repeat split; try assumption; apply getitem_Some; rewrite Hlookup; reflexivity.
Qed.

End contract_refresh.

Lemma sample_shares_parse :
  Forall (@parses (fixed_zone_runtime 0)) (Contract.shares (json Examples.shares_payload)).
Proof. repeat constructor; apply is_Some_alt; vm_compute; exact I. Defined.

Lemma shares_update_bad_date_witness :
  let R := fixed_zone_runtime 0 in
  let good := Contract.mkShare 1 10 (45#100) "2019-03-01T10:00:00.5" in
  let bad := Contract.mkShare 1 30 (55#100) "yesterday" in
  let resp := mkResponse 200 (Contract.mkShares "Renamed" [good; bad; good]) in
  exists c',
    Contract._update_shares resp Examples.held_yes = (c', inl ValueError_strptime) /\
    Contract.contract_name c' = Contract.contractName (json resp) /\
    Contract.my_prediction c' = Some (Contract.predictionType (hd bad [good])) /\
    Contract.shares_owned c' = Spec.total_shares [good] /\
    (Contract.investment c' == Spec.total_cost [good])%Q /\
    Contract.share_details c' = Contract.share_details Examples.held_yes.
Proof.
  intros R good bad resp.
  apply (shares_update_bad_date resp Examples.held_yes [good] bad [good]).
  - unfold failed. simpl. lia.
  - reflexivity.
  - repeat constructor. apply is_Some_alt. vm_compute. exact I.
  - vm_compute. reflexivity.
Defined.

Lemma contract_update_all_applies_witness :
  let R := fixed_zone_runtime 0 in
  let r0 := Examples.book_payload in
  let r1 := Examples.shares_payload in
  let r2 := Samples.offers_payload in
  exists c',
    Contract.update_all (r0, r1, r2) Examples.flat = (c', inr (r0, r1, r2)) /\
    Contract.yes_asks c'
      = inr (list_sort (Contract.tuples (Contract.yesOrders (json r0)))) /\
    Contract.yes_bids c'
      = inr (list_sort (Contract.tuples (Contract.noOrders (json r0)))) /\
    Contract.shares_owned c' = Spec.total_shares (Contract.shares (json r1)) /\
    (Contract.investment c' == Spec.total_cost (Contract.shares (json r1)))%Q /\
    Contract.my_yes_bids c' = inr (orders_of 1 (Contract.offers (json r2))) /\
    Contract.my_no_bids c' = inr (orders_of 0 (Contract.offers (json r2))).
Proof.
  intros R r0 r1 r2.
  apply (contract_update_all_applies r0 r1 r2 Examples.flat).
  - unfold failed. simpl. lia.
  - unfold failed. simpl. lia.
  - unfold failed. simpl. lia.
  - exact sample_shares_parse.
  - repeat constructor; apply sample_offer_valid; lia.
Defined.
